(** * Instagram username checker: a shallow embedding of [main.py]

    Conventions of the embedding.

    - A Python [str] is a Rocq [string]: a sequence of characters, each an
      [ascii] (code points below 256).  [len], indexing, [startswith] and
      [endswith] count characters.
    - A Python [int] is a [Z].
    - A value produced by [resp.json()] is a [json]; Python's [None] is
      [JNull].
    - [print] appends a line to the standard output, [write_file] appends a
      chunk to the output file or raises when the operating system refuses;
      both are threaded explicitly.
    - The asyncio event loop is a labelled transition system: a task only
      gives up control at an [await] that really suspends (acquiring a
      locked semaphore, the network call, [asyncio.sleep]). *)

From Stdlib Require Import ZArith Ascii String List Floats.
From stdpp Require Import base list strings gmap.

Local Open Scope string_scope.
Local Open Scope Z_scope.

(** ** Python values *)

Module Py.

(** Values of [resp.json()]. *)
#[local] Set Warnings "-register-all".
Inductive json : Type :=
| JNull
| JBool (b : bool)
| JInt (z : Z)
| JFloat (f : float)
| JStr (s : string)
| JArr (l : list json)
| JObj (kv : list (string * json)).

(** Exceptions that reach [_check_one].  The first two are the classes named
    by its [except] clause; every other class is [OtherError]. *)
Inductive exn : Type :=
| ClientError (msg : string)
| TimeoutError (msg : string)
| OtherError (cls msg : string).

(** [bool(v)] *)
Definition truthy (v : json) : bool :=
  match v with
  | JNull => false
  | JBool b => b
  | JInt z => negb (z =? 0)
  | JFloat f => negb (PrimFloat.eqb f 0%float)
  | JStr s => negb (String.eqb s "")
  | JArr l => match l with [] => false | _ => true end
  | JObj kv => match kv with [] => false | _ => true end
  end.

(** [v == n] for an [int] literal [n] whose magnitude is below 2^53. *)
Definition eq_int (v : json) (n : Z) : bool :=
  match v with
  | JInt z => z =? n
  | JFloat f => PrimFloat.eqb f (PrimFloat.of_uint63 (Uint63.of_Z n))
  | JBool b => (if b then 1 else 0) =? n
  | _ => false
  end.

(** [v is None] *)
Definition is_None (v : json) : bool :=
  match v with JNull => true | _ => false end.

(** [isinstance(v, dict)] *)
Definition is_dict (v : json) : bool :=
  match v with JObj _ => true | _ => false end.

(** [d.get(k)] on the items of a dict: [None] when the key is missing. *)
Fixpoint dict_find (k : string) (kv : list (string * json)) : option json :=
  match kv with
  | [] => None
  | (k', v) :: rest => if String.eqb k k' then Some v else dict_find k rest
  end.

Definition dict_get (k : string) (kv : list (string * json)) : json :=
  match dict_find k kv with Some v => v | None => JNull end.

(** [k in d] *)
Definition dict_contains (k : string) (kv : list (string * json)) : bool :=
  match dict_find k kv with Some _ => true | None => false end.

(** [a or b] *)
Definition or_else (a b : json) : json := if truthy a then a else b.

(** [v[0]]: the first item of a list, the first character of a string; a
    dict parsed from JSON has only string keys, so [0] is never one of them;
    numbers, booleans and [None] are not subscriptable. *)
Definition subscript0 (v : json) : exn + json :=
  match v with
  | JArr (x :: _) => inr x
  | JArr [] => inl (OtherError "IndexError" "list index out of range")
  | JStr (String c _) => inr (JStr (String c EmptyString))
  | JStr EmptyString => inl (OtherError "IndexError" "string index out of range")
  | JObj _ => inl (OtherError "KeyError" "0")
  | JNull | JBool _ | JInt _ | JFloat _ =>
      inl (OtherError "TypeError" "object is not subscriptable")
  end.

(** The pieces of an f-string: literal text and [str] values, [{v}] for a
    value, [{v!r}] and [{e}] for an exception. *)
Inductive fpart : Type :=
| Lit (s : string)
| Fmt (v : json)
| Repr (v : json)
| FmtExn (e : exn).

Definition line : Type := list fpart.

End Py.

Import Py.

(** ** Module-level helpers of [main.py] *)

(** The character class [[A-Za-z0-9._]]. *)
Definition in_class (c : ascii) : bool :=
  let n := nat_of_ascii c in
  ((65 <=? n)%nat && (n <=? 90)%nat)
  || ((97 <=? n)%nat && (n <=? 122)%nat)
  || ((48 <=? n)%nat && (n <=? 57)%nat)
  || Ascii.eqb c "." || Ascii.eqb c "_".

Fixpoint all_in_class (s : string) : bool :=
  match s with
  | EmptyString => true
  | String c rest => in_class c && all_in_class rest
  end.

(** [re.fullmatch(r'[A-Za-z0-9._]+', s)] seen as a boolean. *)
Definition fullmatch_class_plus (s : string) : bool :=
  match s with
  | EmptyString => false
  | String _ _ => all_in_class s
  end.

(** [s.startswith(c)] and [s.endswith(c)] for a one-character [c]. *)
Definition startswith (c : ascii) (s : string) : bool :=
  match s with
  | EmptyString => false
  | String c' _ => Ascii.eqb c' c
  end.

Fixpoint endswith (c : ascii) (s : string) : bool :=
  match s with
  | EmptyString => false
  | String c' EmptyString => Ascii.eqb c' c
  | String _ rest => endswith c rest
  end.

Definition is_valid_instagram_username (username : string) : bool :=
  let n := Z.of_nat (String.length username) in
  if negb ((1 <=? n) && (n <=? 30)) then false
  else if negb (fullmatch_class_plus username) then false
  else if startswith "." username || endswith "." username then false
  else true.

(** ** The validity predicate *)

(** The rule in words: letters, numbers, underscores, periods. *)
Definition alphabet : list ascii :=
  list_ascii_of_string
    "ABCDEFGHIJKLMNOPQRSTUVWXYZabcdefghijklmnopqrstuvwxyz0123456789._".

Definition allowed_char (c : ascii) : Prop := In c alphabet.

(** The rule in words, over the characters of the string. *)
Definition username_rule (s : string) : Prop :=
  (1 <= length (list_ascii_of_string s) <= 30)%nat
  /\ Forall allowed_char (list_ascii_of_string s)
  /\ head (list_ascii_of_string s) <> Some "."%char
  /\ list.last (list_ascii_of_string s) <> Some "."%char.

Definition in_alphabet (c : ascii) : bool := existsb (Ascii.eqb c) alphabet.

(** ** Files and the identifier source *)

Definition NL : string := String "010" EmptyString.

(** What the operating system does with the [open(path, 'a')] and the
    [f.write] of one call of [write_file]: the chunk is appended, or an
    exception is raised (the directory is missing, the path may not be
    written, ...) and the file is left as it was. *)
Inductive io_outcome : Type :=
| IoOk
| IoRaises (x : exn).

(** The file system, the contents of each file that exists, after a call of
    [write_file] that returns: the file is created when it is missing. *)
Definition append_line (arg path : string) (fs : gmap string string)
  : gmap string string :=
  <[path := (default "" (fs !! path) ++ (arg ++ NL))%string]> fs.


(** [str.isspace] on one character. *)
Definition isspace (c : ascii) : bool :=
  let n := nat_of_ascii c in
  ((9 <=? n)%nat && (n <=? 13)%nat) || ((28 <=? n)%nat && (n <=? 32)%nat)
  || (n =? 133)%nat || (n =? 160)%nat.

Fixpoint lstrip (s : string) : string :=
  match s with
  | EmptyString => EmptyString
  | String c rest => if isspace c then lstrip rest else s
  end.

Fixpoint rstrip (s : string) : string :=
  match s with
  | EmptyString => EmptyString
  | String c rest =>
      match rstrip rest with
      | EmptyString => if isspace c then EmptyString else String c EmptyString
      | kept => String c kept
      end
  end.

(** [s.strip()] *)
Definition strip (s : string) : string := rstrip (lstrip s).

(** The loop of [open_file] that keeps the order and drops duplicates. *)
Fixpoint drop_duplicates (lines : list string) (seen : gset string)
    (result : list string) : list string :=
  match lines with
  | [] => result
  | name :: rest =>
      if decide (name ∈ seen) then drop_duplicates rest seen result
      else drop_duplicates rest ({[name]} ∪ seen) (result ++ [name])
  end.

(** [open_file]: [file] is [None] when the path does not exist, otherwise the
    lines the file iterates over.  Returns what is printed and the list. *)
Definition open_file (path : string) (file : option (list string))
  : list line * list string :=
  match file with
  | None => ([[Lit "[ERROR] Input file not found: "; Lit path]], [])
  | Some content =>
      let lines :=
        map strip (List.filter (fun l => negb (String.eqb (strip l) "")) content) in
      ([], drop_duplicates lines ∅ [])
  end.

(** ** The two clients *)

(** What the network gives back for one request: the request or the read of
    the body raises, or a response arrives with its status and its body.
    The body is given as what [resp.json(content_type=None)] makes of it:
    [Some v] when it returns [v], the parsed value, or [None] (here [JNull])
    for a body that is empty or blank, which aiohttp does not parse; [None]
    when it raises, the body being neither blank nor JSON. *)
Inductive http_reply : Type :=
| HttpRaise (e : exn)
| HttpResponse (status : Z) (body : option json).

(** What [fetch_status_code] does: return a pair or raise. *)
Inductive fetch_result : Type :=
| Returned (status_code raw : json)
| Raised (e : exn).

(** The items of a dict, nothing for any other value. *)
Definition items (v : json) : list (string * json) :=
  match v with JObj kv => kv | _ => [] end.

Module OxylabsClient.

(** Lines 83-87: the object the status is read from. *)
Definition resolve (data : json) : exn + json :=
  if is_dict data && dict_contains "results" (items data)
     && truthy (dict_get "results" (items data))
  then subscript0 (dict_get "results" (items data))
  else inr data.

(** Lines 88-90. *)
Definition read_status (result : json) : json :=
  if is_dict result
  then or_else (dict_get "status_code" (items result))
               (dict_get "status" (items result))
  else JNull.

Definition fetch_status_code (reply : http_reply) : fetch_result :=
  match reply with
  | HttpRaise e => Raised e
  | HttpResponse _ None =>
      Raised (OtherError "JSONDecodeError" "Expecting value")
  | HttpResponse _ (Some data) =>
      match resolve data with
      | inl e => Raised e
      | inr result => Returned (read_status result) result
      end
  end.

End OxylabsClient.

Module DirectClient.

Definition fetch_status_code (reply : http_reply) : fetch_result :=
  match reply with
  | HttpRaise e => Raised e
  | HttpResponse status _ => Returned (JInt status) JNull
  end.

End DirectClient.

(** The client [start] builds; both have the one method. *)
Inductive client : Type := Oxylabs | Direct.

Definition fetch_status_code (c : client) (reply : http_reply) : fetch_result :=
  match c with
  | Oxylabs => OxylabsClient.fetch_status_code reply
  | Direct => DirectClient.fetch_status_code reply
  end.

(** ** The checker *)

Definition ESC : string := String "027" EmptyString.

Module Checker.

Record t : Type := {
  to_check : list string;
  sem : Z;                      (* the initial value of the semaphore *)
  retries : Z;
  output_path : string;
  oxy_user : option string;
  oxy_pass : option string;
  request_timeout : Z
}.

Definition __init__ (usernames : list string)
    (oxylabs_username oxylabs_password : option string)
    (concurrency retries : Z) (output_path : string) (request_timeout : Z) : t :=
  {| to_check := usernames;
     sem := Z.max 1 concurrency;
     retries := Z.max 0 retries;
     output_path := output_path;
     oxy_user := oxylabs_username;
     oxy_pass := oxylabs_password;
     request_timeout := request_timeout |}.

Definition url_of (username : string) : string :=
  ("https://www.instagram.com/" ++ username ++ "/")%string.

(** How one pass through the body of the loop ends. *)
Inductive continuation : Type :=
| Return
| SleepThenContinue (delay : Z)
| Propagate (e : exn).

(** What one pass prints, what [write_file] has appended for it, and how it
    ends. *)
Record effects : Type := {
  printed : list line;
  written : list string;
  next : continuation
}.

(** Lines 152-157: what the [except] clause does with an exception raised
    in the [try] block, by the client or by [write_file]. *)
Definition except_clause (self : t) (username : string) (attempt : Z)
    (e : exn) : effects :=
  match e with
  | ClientError _ | TimeoutError _ =>
      if attempt <=? retries self then
        {| printed := []; written := [];
           next := SleepThenContinue (Z.min (2 ^ (attempt - 1)) 10) |}
      else
        {| printed := [[Lit "[ERROR] "; Lit username; Lit ": "; FmtExn e]];
           written := [];
           next := Return |}
  | OtherError _ _ => {| printed := []; written := []; next := Propagate e |}
  end.

(** Lines 144-157: the body of the loop once [fetch_status_code] has
    returned or raised; [o] is the outcome of the call of [write_file] at
    line 146, if the call is made.  When it raises, the line of line 145 has
    been printed, nothing is appended and the [except] clause takes over. *)
Definition after_fetch_io (self : t) (username : string) (attempt : Z)
    (r : fetch_result) (o : io_outcome) : effects :=
  let url := url_of username in
  match r with
  | Returned status_code raw =>
      if eq_int status_code 404 then
        match o with
        | IoOk =>
            {| printed := [[Lit (ESC ++ "[32;1m[AVAILABLE]" ++ ESC ++ "[0m ")%string;
                            Lit url]];
               written := [username];
               next := Return |}
        | IoRaises x =>
            let h := except_clause self username attempt x in
            {| printed := [Lit (ESC ++ "[32;1m[AVAILABLE]" ++ ESC ++ "[0m ")%string;
                           Lit url] :: printed h;
               written := [];
               next := next h |}
        end
      else if is_None status_code then
        {| printed := [[Lit "[!] Unknown status for "; Lit username;
                        Lit ", response malformed: "; Repr raw]];
           written := [];
           next := Return |}
      else
        {| printed := [[Lit (ESC ++ "[31;1m[UNAVAILABLE]" ++ ESC ++ "[0m ")%string;
                        Lit url; Lit " (status="; Fmt status_code; Lit ")"]];
           written := [];
           next := Return |}
  | Raised e => except_clause self username attempt e
  end.

(** The same when the output file can be appended to. *)
Definition after_fetch (self : t) (username : string) (attempt : Z)
    (r : fetch_result) : effects :=
  after_fetch_io self username attempt r IoOk.

(** What [_check_one] does, in order. *)
Inductive event : Type :=
| Request (c : client) (url : string)
| Print (l : line)
| Write (arg path : string)
| Sleep (delay : Z).

Definition events_of (self : t) (e : effects) : list event :=
  (map Print (printed e)
   ++ map (fun a => Write a (output_path self)) (written e))%list.

(** [_check_one] run on its own, with an output file that can be appended
    to: [replies] are the answers of the network to its successive requests.
    [None] when the answers run out while the loop still waits for one. *)
Fixpoint loop (self : t) (c : client) (username : string) (attempt : Z)
    (replies : list http_reply) : option (list event) :=
  match replies with
  | [] => None
  | reply :: rest =>
      let attempt := attempt + 1 in
      let e := after_fetch self username attempt (fetch_status_code c reply) in
      let head := Request c (url_of username) :: events_of self e in
      match next e with
      | Return | Propagate _ => Some head
      | SleepThenContinue d =>
          match loop self c username attempt rest with
          | Some tail => Some (head ++ Sleep d :: tail)%list
          | None => None
          end
      end
  end.

Definition _check_one (self : t) (c : client) (username : string)
    (replies : list http_reply) : option (list event) :=
  loop self c username 0 replies.

(** *** The tasks of [start] on the event loop *)

(** Where the coroutine of one task stands.  A task gives up control only
    while it waits for the semaphore, for the network or for the sleep.
    Lines 140-143 are one step, taken when the semaphore lets the task
    through: in a task at the head of the loop [attempt] counts the attempts
    made so far, the one it is about to make not included. *)
Inductive pc : Type :=
| AtLoopHead            (* before [attempt += 1] and [async with self.sem] *)
| InFlight              (* inside [async with], awaiting the client *)
| Sleeping (delay : Z)  (* awaiting [asyncio.sleep(delay)] *)
| Finished              (* returned *)
| Failed (e : exn).     (* an exception left the coroutine *)

Record task : Type := {
  username : string;
  attempt : Z;
  at_pc : pc;
  holds_sem : bool      (* between [__aenter__] and [__aexit__] of the semaphore *)
}.

Record state : Type := {
  session : option client;          (* the client [start] has entered *)
  sem_value : Z;                    (* [self.sem._value] *)
  tasks : list task;
  stdout : list line;
  files : gmap string string;
  requests : list (client * string) (* the requests sent, oldest first *)
}.

(** What happens next: the event loop lets task [i] through the semaphore
    and its request is sent; the answer of the network is delivered to task
    [i], whose write, if it makes one, succeeds; the sleep of task [i] ends;
    or an answer that reports status 404 is delivered to task [i] and its
    call of [write_file] raises [x]. *)
Inductive label : Type :=
| Acquire (i : nat)
| Reply (i : nat) (reply : http_reply)
| Wake (i : nat)
| WriteFails (i : nat) (reply : http_reply) (x : exn).

Definition pc_of (k : continuation) : pc :=
  match k with
  | Return => Finished
  | SleepThenContinue d => Sleeping d
  | Propagate e => Failed e
  end.

(** The file system after the calls of [write_file] that returned. *)
Definition write_all (path : string) (args : list string)
    (fs : gmap string string) : gmap string string :=
  fold_left (fun fs a => append_line a path fs) args fs.

(** The client reports status 404 for the answer. *)
Definition reports_404 (c : client) (reply : http_reply) : bool :=
  match fetch_status_code c reply with
  | Returned status_code _ => eq_int status_code 404
  | Raised _ => false
  end.

(** One step of the event loop; [None] when the step cannot happen in [s]. *)
Definition exec (self : t) (s : state) (l : label) : option state :=
  match l with
  | Acquire i =>
      match session s, tasks s !! i with
      | Some c, Some tk =>
          match at_pc tk with
          | AtLoopHead =>
              if 0 <? sem_value s then
                Some {| session := session s;
                        sem_value := sem_value s - 1;
                        tasks := <[i := {| username := username tk;
                                           attempt := attempt tk + 1;
                                           at_pc := InFlight;
                                           holds_sem := true |}]> (tasks s);
                        stdout := stdout s;
                        files := files s;
                        requests :=
                          (requests s ++ [(c, url_of (username tk))])%list |}
              else None
          | _ => None
          end
      | _, _ => None
      end
  | Reply i reply =>
      match session s, tasks s !! i with
      | Some c, Some tk =>
          match at_pc tk with
          | InFlight =>
              let e := after_fetch self (username tk) (attempt tk)
                         (fetch_status_code c reply) in
              Some {| session := session s;
                      sem_value := sem_value s + 1;
                      tasks := <[i := {| username := username tk;
                                         attempt := attempt tk;
                                         at_pc := pc_of (next e);
                                         holds_sem := false |}]> (tasks s);
                      stdout := (stdout s ++ printed e)%list;
                      files := write_all (output_path self) (written e) (files s);
                      requests := requests s |}
          | _ => None
          end
      | _, _ => None
      end
  | Wake i =>
      match tasks s !! i with
      | Some tk =>
          match at_pc tk with
          | Sleeping _ =>
              Some {| session := session s;
                      sem_value := sem_value s;
                      tasks := <[i := {| username := username tk;
                                         attempt := attempt tk;
                                         at_pc := AtLoopHead;
                                         holds_sem := holds_sem tk |}]> (tasks s);
                      stdout := stdout s;
                      files := files s;
                      requests := requests s |}
          | _ => None
          end
      | None => None
      end
  | WriteFails i reply x =>
      match session s, tasks s !! i with
      | Some c, Some tk =>
          match at_pc tk with
          | InFlight =>
              if reports_404 c reply then
                let e := after_fetch_io self (username tk) (attempt tk)
                           (fetch_status_code c reply) (IoRaises x) in
                Some {| session := session s;
                        sem_value := sem_value s + 1;
                        tasks := <[i := {| username := username tk;
                                           attempt := attempt tk;
                                           at_pc := pc_of (next e);
                                           holds_sem := false |}]> (tasks s);
                        stdout := (stdout s ++ printed e)%list;
                        files := files s;
                        requests := requests s |}
              else None
          | _ => None
          end
      | _, _ => None
      end
  end.

Fixpoint run (self : t) (s : state) (ls : list label) : option state :=
  match ls with
  | [] => Some s
  | l :: rest =>
      match exec self s l with
      | Some s' => run self s' rest
      | None => None
      end
  end.

(** [bool(x)] for an optional string. *)
Definition truthy_str (x : option string) : bool :=
  match x with
  | Some s => negb (String.eqb s "")
  | None => false
  end.

Definition create_task (u : string) : task :=
  {| username := u; attempt := 0; at_pc := AtLoopHead; holds_sem := false |}.

(** [start] up to the point where it awaits [gather]: what has been printed,
    the client entered and the tasks created. *)
Definition start (self : t) (out : list line) (fs : gmap string string) : state :=
  let valid_usernames := List.filter is_valid_instagram_username (to_check self) in
  let skipped :=
    List.filter (fun u => negb (existsb (String.eqb u) valid_usernames))
                (to_check self) in
  let out :=
    match skipped with
    | [] => out
    | _ => (out ++ [[Lit "[i] Skipping "; Fmt (JInt (Z.of_nat (length skipped)));
                     Lit " invalid usernames"]])%list
    end in
  match valid_usernames with
  | [] =>
      {| session := None; sem_value := sem self; tasks := [];
         stdout := (out ++ [[Lit "[i] No valid usernames to check."]])%list;
         files := fs; requests := [] |}
  | _ =>
      if truthy_str (oxy_user self) && truthy_str (oxy_pass self) then
        {| session := Some Oxylabs; sem_value := sem self;
           tasks := map create_task valid_usernames;
           stdout := (out ++ [[Lit "[i] Using Oxylabs Real-Time Crawler API"]])%list;
           files := fs; requests := [] |}
      else
        {| session := Some Direct; sem_value := sem self;
           tasks := map create_task valid_usernames;
           stdout :=
             (out ++ [[Lit "[i] Oxylabs credentials not provided. Falling back to direct requests (may be inaccurate)."]])%list;
           files := fs; requests := [] |}
  end.

End Checker.

(** ** The entry point *)

(** The values [parse_args] produces. *)
Record Namespace : Type := {
  input : string;
  output : string;
  concurrency : Z;
  retries : Z;
  timeout : Z;
  oxylabs_username : option string;
  oxylabs_password : option string
}.

(** The checker [amain] builds from the arguments and the input file. *)
Definition checker_of (args : Namespace) (file : option (list string))
  : Checker.t :=
  Checker.__init__ (snd (open_file (input args) file))
    (oxylabs_username args) (oxylabs_password args)
    (concurrency args) (retries args) (output args) (timeout args).

(** [amain] up to the point where [start] awaits its tasks. *)
Definition amain (args : Namespace) (file : option (list string))
    (fs : gmap string string) : Checker.state :=
  Checker.start (checker_of args file) (fst (open_file (input args) file)) fs.

(** ** The specification in words *)

(** The three outcomes of a completed probe. *)
Inductive category : Type := Hit | Miss | Unknown.

(** 404 is a hit, an absent status is unknown, anything else is a miss. *)
Definition category_of (status : json) : category :=
  if eq_int status 404 then Hit
  else match status with JNull => Unknown | _ => Miss end.

(** Exponential backoff with base 1 and cap 10. *)
Definition backoff (attempt : Z) : Z := Z.min (2 ^ (attempt - 1)) 10.

(** A credential is supplied when it is given and not empty. *)
Definition supplied (x : option string) : Prop :=
  exists s, x = Some s /\ s <> "".

(** The projections of what [_check_one] did. *)
Definition is_request (e : Checker.event) : bool :=
  match e with Checker.Request _ _ => true | _ => false end.

Definition sleeps_of (tr : list Checker.event) : list Z :=
  flat_map (fun e => match e with Checker.Sleep d => [d] | _ => [] end) tr.

Definition writes_of (tr : list Checker.event) : list (string * string) :=
  flat_map (fun e => match e with Checker.Write a p => [(a, p)] | _ => [] end) tr.

Definition prints_of (tr : list Checker.event) : list line :=
  flat_map (fun e => match e with Checker.Print l => [l] | _ => [] end) tr.

(** The exceptions [_check_one] retries. *)
Definition retryable (e : exn) : Prop :=
  match e with
  | ClientError _ | TimeoutError _ => True
  | OtherError _ _ => False
  end.

(** The tasks that hold a unit of the semaphore's initial value. *)
Definition in_flight (tk : Checker.task) : bool :=
  match Checker.at_pc tk with Checker.InFlight => true | _ => false end.

Definition count_in_flight (s : Checker.state) : nat :=
  length (List.filter in_flight (Checker.tasks s)).

(** A task that will not run again. *)
Definition terminal (tk : Checker.task) : bool :=
  match Checker.at_pc tk with
  | Checker.Finished | Checker.Failed _ => true
  | _ => false
  end.

(** A present [status_code] is the status, whatever its value. *)
Definition status_code_used_when_present : Prop :=
  forall kv v, dict_find "status_code" kv = Some v -> OxylabsClient.read_status (JObj kv) = v.

(** The units of the semaphore are either free or held by the tasks in
    flight, and by no other task. *)
Definition sem_inv (self : Checker.t) (s : Checker.state) : Prop :=
  Checker.sem_value s + Z.of_nat (count_in_flight s) = Checker.sem self
  /\ 0 <= Checker.sem_value s
  /\ Forall (fun tk => Checker.holds_sem tk = in_flight tk) (Checker.tasks s).

(** The answer of the network makes the client report status 404. *)
Definition got_404 (c : option client) (reply : http_reply) : bool :=
  match c with
  | Some c =>
      match fetch_status_code c reply with
      | Returned status_code _ => eq_int status_code 404
      | Raised _ => false
      end
  | None => false
  end.

(** [hits] lists, oldest first, the tasks whose identifier has been written,
    each with its identifier: the output file holds exactly these writes on
    top of [fs0], no task occurs twice, and each of them has finished after
    an answer, delivered in [ls], that made the client report 404. *)
Definition hits_inv (self : Checker.t) (c : option client)
    (fs0 : gmap string string) (ls : list Checker.label) (s : Checker.state)
    (hits : list (nat * string)) : Prop :=
  Checker.files s
  = Checker.write_all (Checker.output_path self) (map snd hits) fs0
  /\ NoDup (map fst hits)
  /\ forall i u, In (i, u) hits ->
       (exists tk, Checker.tasks s !! i = Some tk /\ Checker.username tk = u
                   /\ Checker.at_pc tk = Checker.Finished)
       /\ exists reply, In (Checker.Reply i reply) ls /\ got_404 c reply = true.

(** The line that reports how many identifiers are skipped, when some are. *)
Definition skip_report (self : Checker.t) : list line :=
  match List.filter (fun u => negb (is_valid_instagram_username u))
                    (Checker.to_check self) with
  | [] => []
  | invalid =>
      [[Lit "[i] Skipping "; Fmt (JInt (Z.of_nat (length invalid)));
        Lit " invalid usernames"]]
  end.

(** The two lines that report which client was chosen. *)
Definition oxylabs_line : line := [Lit "[i] Using Oxylabs Real-Time Crawler API"].

Definition direct_line : line :=
  [Lit "[i] Oxylabs credentials not provided. Falling back to direct requests (may be inaccurate)."].

Definition is_choice_line (l : line) : bool :=
  match l with
  | [Lit t] =>
      String.eqb t "[i] Using Oxylabs Real-Time Crawler API"
      || String.eqb t "[i] Oxylabs credentials not provided. Falling back to direct requests (may be inaccurate)."
  | _ => false
  end.

(** ** Measures of a batch *)



(** The stripped lines of a file that are not blank, in the order of the
    file. *)
Definition stripped_lines (content : list string) : list string :=
  map strip (List.filter (fun l => negb (String.eqb (strip l) "")) content).

(** The first occurrence of every element, in order. *)
Fixpoint first_occurrences (l : list string) : list string :=
  match l with
  | [] => []
  | x :: rest =>
      x :: List.filter (fun y => negb (String.eqb y x)) (first_occurrences rest)
  end.

Fixpoint all_space (s : string) : bool :=
  match s with
  | EmptyString => true
  | String c rest => isspace c && all_space rest
  end.

(** [s] neither starts nor ends with a whitespace character. *)
Definition trimmed (s : string) : Prop :=
  (forall c rest, s = String c rest -> isspace c = false)
  /\ (forall front c, s = (front ++ String c EmptyString)%string ->
        isspace c = false).

(** The attempt counter of a task stays within the budget, and a sleeping
    task sleeps for the backoff of its attempt. *)
Definition attempts_inv (self : Checker.t) (tk : Checker.task) : Prop :=
  match Checker.at_pc tk with
  | Checker.AtLoopHead =>
      0 <= Checker.attempt tk <= Checker.retries self
  | Checker.Sleeping d =>
      1 <= Checker.attempt tk <= Checker.retries self
      /\ d = backoff (Checker.attempt tk)
  | Checker.InFlight | Checker.Finished | Checker.Failed _ =>
      1 <= Checker.attempt tk <= Checker.retries self + 1
  end.

(** An upper bound on the steps a task can still take. *)
Definition steps_left (self : Checker.t) (tk : Checker.task) : Z :=
  match Checker.at_pc tk with
  | Checker.AtLoopHead => 3 * (Checker.retries self - Checker.attempt tk) + 2
  | Checker.InFlight => 3 * (Checker.retries self - Checker.attempt tk) + 4
  | Checker.Sleeping _ => 3 * (Checker.retries self - Checker.attempt tk) + 3
  | Checker.Finished | Checker.Failed _ => 0
  end.

Definition total (f : Checker.task -> Z) (l : list Checker.task) : Z :=
  fold_right (fun tk acc => f tk + acc) 0 l.

Definition finished (tk : Checker.task) : bool :=
  match Checker.at_pc tk with Checker.Finished => true | _ => false end.

(** The line of an answer without status. *)
Definition is_unknown_line (l : line) : bool :=
  match l with
  | Lit t :: _ => String.eqb t "[!] Unknown status for "
  | _ => false
  end.



(** A value that [[0]] cannot be applied to: a number, a boolean or a
    dict. *)
Definition not_indexable (v : json) : bool :=
  match v with
  | JInt _ | JFloat _ | JBool _ | JObj _ => true
  | JNull | JStr _ | JArr _ => false
  end.

(** The schedule that lets task [i] run alone through its check, with the
    answers [replies] to its successive requests. *)
Fixpoint schedule_of (self : Checker.t) (c : client) (u : string) (i : nat)
    (attempt : Z) (replies : list http_reply) : list Checker.label :=
  match replies with
  | [] => []
  | reply :: rest =>
      Checker.Acquire i :: Checker.Reply i reply ::
      match Checker.next (Checker.after_fetch self u (attempt + 1)
                            (fetch_status_code c reply)) with
      | Checker.SleepThenContinue _ =>
          Checker.Wake i :: schedule_of self c u i (attempt + 1) rest
      | _ => []
      end
  end.

(** The steps in which a call of [write_file] raises. *)
Definition is_write_failure (l : Checker.label) : bool :=
  match l with Checker.WriteFails _ _ _ => true | _ => false end.

Definition write_failures (ls : list Checker.label) : nat :=
  length (List.filter is_write_failure ls).


(** A client is chosen by the credentials alone, whatever the batch. *)
Definition transport_chosen_for_every_batch : Prop :=
  forall (self : Checker.t) (out : list line) (fs : gmap string string),
    let s0 := Checker.start self out fs in
    (Checker.session s0 = Some Oxylabs
     <-> supplied (Checker.oxy_user self) /\ supplied (Checker.oxy_pass self))
    /\ (~ (supplied (Checker.oxy_user self)
           /\ supplied (Checker.oxy_pass self)) ->
        Checker.session s0 = Some Direct).

(** * Properties *)

Section ValidityFacts.

Lemma in_class_alphabet c : in_class c = in_alphabet c.
Proof. destruct c as [[] [] [] [] [] [] [] []]; vm_compute; reflexivity. Qed.

Lemma in_class_allowed c : in_class c = true <-> allowed_char c.
Proof.
  rewrite in_class_alphabet. unfold in_alphabet, allowed_char.
  rewrite existsb_exists. split.
  - intros (x & Hin & Heq). apply Ascii.eqb_eq in Heq. now subst.
  - intros Hin. exists c. split; [exact Hin | apply Ascii.eqb_refl].
Qed.

Lemma all_in_class_Forall s :
  all_in_class s = true <-> Forall allowed_char (list_ascii_of_string s).
Proof.
  induction s as [|c s IH]; simpl.
  - split; [constructor | reflexivity].
  - rewrite andb_true_iff, IH, in_class_allowed. split.
    + intros [? ?]. now constructor.
    + intros H. inversion H; subst. now split.
Qed.

Lemma length_chars s : String.length s = length (list_ascii_of_string s).
Proof. induction s; simpl; congruence. Qed.

Lemma startswith_head c s :
  startswith c s = true <-> head (list_ascii_of_string s) = Some c.
Proof.
  destruct s as [|c' s]; simpl.
  - split; discriminate.
  - rewrite Ascii.eqb_eq. split; congruence.
Qed.

Lemma endswith_last c s :
  endswith c s = true <-> list.last (list_ascii_of_string s) = Some c.
Proof.
  induction s as [|c' s IH]; simpl.
  - split; discriminate.
  - destruct s as [|c'' s]; simpl in *.
    + rewrite Ascii.eqb_eq. split; congruence.
    + exact IH.
Qed.

Lemma is_valid_rule s : is_valid_instagram_username s = true <-> username_rule s.
Proof.
  unfold is_valid_instagram_username, username_rule.
  rewrite <- length_chars, <- all_in_class_Forall.
  rewrite <- (startswith_head "."), <- (endswith_last ".").
  assert (Hfm : 1 <= Z.of_nat (String.length s) ->
                fullmatch_class_plus s = all_in_class s).
  { destruct s; simpl; [lia | reflexivity]. }
  destruct (Z.leb_spec 1 (Z.of_nat (String.length s))) as [H1|H1];
    destruct (Z.leb_spec (Z.of_nat (String.length s)) 30) as [H2|H2];
    cbn [negb andb];
    try (split; [discriminate | intros (? & _); lia]).
  rewrite (Hfm H1).
  destruct (all_in_class s), (startswith "." s), (endswith "." s);
    cbn [negb orb]; split; try discriminate; try tauto;
    try (intros _; repeat split; (lia || discriminate)).
Qed.

End ValidityFacts.

(** C7. The validity predicate accepts exactly the strings of 1 to 30
  characters, all letters, digits, underscores or periods, that neither
  start nor end with a period; "john_doe" and "a.b.c" are valid, a string
  of 31 characters, ".leading", "trailing.", "bad$char" and the empty
  string are not. *)
Theorem is_valid_instagram_username_spec :
(forall s, is_valid_instagram_username s = true <-> username_rule s)
/\ is_valid_instagram_username "john_doe" = true
/\ is_valid_instagram_username "a.b.c" = true
/\ String.length "toolongtoolongtoolongtoolongabc" = 31%nat
/\ is_valid_instagram_username "toolongtoolongtoolongtoolongabc" = false
/\ is_valid_instagram_username ".leading" = false
/\ is_valid_instagram_username "trailing." = false
/\ is_valid_instagram_username "bad$char" = false
/\ is_valid_instagram_username "" = false.
Proof.
split; [exact is_valid_rule|].
repeat split; vm_compute; reflexivity.
Qed.

(** ** The mediated client *)

Section Transport.

Import OxylabsClient.

Lemma resolve_results_list kv x rest :
  dict_find "results" kv = Some (JArr (x :: rest)) ->
  resolve (JObj kv) = inr x.
Proof.
  intros H. unfold resolve, dict_contains, dict_get. simpl. now rewrite H.
Qed.

Lemma resolve_not_dict data : is_dict data = false -> resolve data = inr data.
Proof. intros H. unfold resolve. now rewrite H. Qed.

Lemma resolve_no_results kv :
  dict_find "results" kv = None -> resolve (JObj kv) = inr (JObj kv).
Proof.
  intros H. unfold resolve, dict_contains. simpl. now rewrite H.
Qed.

Lemma resolve_falsy_results kv v :
  dict_find "results" kv = Some v -> truthy v = false ->
  resolve (JObj kv) = inr (JObj kv).
Proof.
  intros H Hv. unfold resolve, dict_contains, dict_get. simpl.
  now rewrite H, Hv.
Qed.

Lemma read_status_not_dict result : is_dict result = false -> read_status result = JNull.
Proof. intros H. unfold read_status. now rewrite H. Qed.

Lemma read_status_no_field kv :
  dict_find "status_code" kv = None -> dict_find "status" kv = None ->
  read_status (JObj kv) = JNull.
Proof.
  intros H1 H2. unfold read_status, or_else, dict_get. simpl.
  now rewrite H1, H2.
Qed.

(** When [results] is a list, or missing, or falsy, the body is resolved as
    the two shapes describe, and a resolved object without a status gives
    [None] with the object as payload. *)
Lemma fetch_status_code_shapes st data result :
  resolve data = inr result ->
  (is_dict result = false
   \/ exists kv, result = JObj kv /\ dict_find "status_code" kv = None
                 /\ dict_find "status" kv = None) ->
  fetch_status_code (HttpResponse st (Some data)) = Returned JNull result.
Proof.
  intros Hr Hs. unfold fetch_status_code. rewrite Hr. f_equal.
  destruct Hs as [H | (kv & -> & H1 & H2)].
  - now apply read_status_not_dict.
  - now apply read_status_no_field.
Qed.

(** C5. A body whose [results] entry is truthy but is not a list is neither
    resolved to a first element nor to the top-level value: a number makes
    [fetch_status_code] raise [TypeError], a non-empty mapping [KeyError],
    and nothing is returned. *)
Theorem fetch_status_code_results_not_a_list :
  fetch_status_code (HttpResponse 200 (Some (JObj [("results", JInt 5)])))
  = Raised (OtherError "TypeError" "object is not subscriptable")
  /\ fetch_status_code
       (HttpResponse 200
          (Some (JObj [("results", JObj [("error", JStr "blocked")])])))
     = Raised (OtherError "KeyError" "0").
Proof. split; reflexivity. Qed.

(** C6, as stated, fails: [{"status_code": 0, "status": 404}] has a
    [status_code] and yet the status read is 404. *)
Lemma status_code_present_not_used : ~ status_code_used_when_present.
Proof.
  intros H.
  specialize (H [("status_code", JInt 0); ("status", JInt 404)] (JInt 0) eq_refl).
  discriminate H.
Qed.

(** C6, amended.  The status is the value of [status_code] when that field is
    present and truthy; when it is absent or falsy the status is the value of
    [status], [None] if there is none. *)
Theorem read_status_or_fallback kv :
  (forall v, dict_find "status_code" kv = Some v -> truthy v = true ->
             read_status (JObj kv) = v)
  /\ (dict_find "status_code" kv = None ->
      read_status (JObj kv) = dict_get "status" kv)
  /\ (forall v, dict_find "status_code" kv = Some v -> truthy v = false ->
                read_status (JObj kv) = dict_get "status" kv).
Proof.
  unfold read_status, or_else. cbn [is_dict items].
  repeat split.
  - intros v Hf Ht. unfold dict_get at 1 2. rewrite Hf, Ht. reflexivity.
  - intros Hf. unfold dict_get at 1 2. rewrite Hf. reflexivity.
  - intros v Hf Ht. unfold dict_get at 1 2. rewrite Hf, Ht. reflexivity.
Qed.

End Transport.

(** ** Classification and retries *)

Section CheckOne.

Import Checker.

Variable self : Checker.t.



Lemma write_all_app path us vs (fs : gmap string string) :
  write_all path (us ++ vs) fs = write_all path vs (write_all path us fs).
Proof. unfold write_all. apply fold_left_app. Qed.

Lemma after_fetch_hit username attempt status raw :
  category_of status = Hit ->
  after_fetch self username attempt (Returned status raw)
  = {| printed := [[Lit (ESC ++ "[32;1m[AVAILABLE]" ++ ESC ++ "[0m ")%string;
                    Lit (url_of username)]];
       written := [username];
       next := Return |}.
Proof.
  unfold category_of, after_fetch, after_fetch_io.
  destruct (eq_int status 404); [reflexivity|].
  destruct status; discriminate.
Qed.

Lemma after_fetch_unknown username attempt status raw :
  category_of status = Unknown ->
  after_fetch self username attempt (Returned status raw)
  = {| printed := [[Lit "[!] Unknown status for "; Lit username;
                    Lit ", response malformed: "; Repr raw]];
       written := [];
       next := Return |}.
Proof.
  unfold category_of, after_fetch, after_fetch_io.
  destruct (eq_int status 404); [discriminate|].
  destruct status; (discriminate || reflexivity).
Qed.

Lemma after_fetch_miss username attempt status raw :
  category_of status = Miss ->
  after_fetch self username attempt (Returned status raw)
  = {| printed := [[Lit (ESC ++ "[31;1m[UNAVAILABLE]" ++ ESC ++ "[0m ")%string;
                    Lit (url_of username); Lit " (status="; Fmt status;
                    Lit ")"]];
       written := [];
       next := Return |}.
Proof.
  unfold category_of, after_fetch, after_fetch_io.
  destruct (eq_int status 404); [discriminate|].
  destruct status; (discriminate || reflexivity).
Qed.


End CheckOne.



Section RetryBound.

Import Checker.

Variables (self : Checker.t) (c : client) (username : string).

Let failing (reply : http_reply) : Prop :=
  exists e, fetch_status_code c reply = Raised e /\ retryable e.

Let round (n : nat) : list event :=
  [Request c (url_of username); Sleep (backoff (Z.of_nat n))].

Let abandon (e : exn) : list event :=
  [Request c (url_of username);
   Print [Lit "[ERROR] "; Lit username; Lit ": "; FmtExn e]].

Lemma after_fetch_retryable attempt e :
  retryable e ->
  after_fetch self username attempt (Raised e)
  = if attempt <=? Checker.retries self then
      {| printed := []; written := [];
         next := SleepThenContinue (backoff attempt) |}
    else
      {| printed := [[Lit "[ERROR] "; Lit username; Lit ": "; FmtExn e]];
         written := []; next := Return |}.
Proof. destruct e; simpl; intros H; (reflexivity || contradiction). Qed.

Lemma loop_all_fail k : forall a replies,
  Z.of_nat (a + k) = Checker.retries self ->
  Forall failing replies ->
  (k < length replies)%nat ->
  exists e,
    loop self c username (Z.of_nat a) replies
    = Some (concat (map round (seq (S a) k)) ++ abandon e)%list.
Proof.
  induction k as [|k IH]; intros a replies Ha Hf Hlen.
  - destruct replies as [|r rest]; [simpl in Hlen; lia|].
    inversion Hf as [|? ? (e & He & Hr) _]; subst.
    exists e. simpl. rewrite He, (after_fetch_retryable _ _ Hr).
    replace (Z.of_nat a + 1 <=? Checker.retries self) with false
      by (symmetry; apply Z.leb_gt; lia).
    reflexivity.
  - destruct replies as [|r rest]; [simpl in Hlen; lia|].
    inversion Hf as [|? ? (e & He & Hr) Hrest]; subst.
    destruct (IH (S a) rest) as (e' & IHe); [lia | assumption | simpl in Hlen; lia |].
    exists e'. cbn [loop]. rewrite He, (after_fetch_retryable _ _ Hr).
    replace (Z.of_nat a + 1 <=? Checker.retries self) with true
      by (symmetry; apply Z.leb_le; lia).
    cbn [next events_of printed written map app].
    replace (Z.of_nat a + 1) with (Z.of_nat (S a)) by lia.
    rewrite IHe. reflexivity.
Qed.

Lemma requests_of_rounds e l :
  length (List.filter is_request (concat (map round l) ++ abandon e))
  = S (length l).
Proof.
  induction l as [|n l IH]; simpl; [reflexivity|]. now rewrite IH.
Qed.

Lemma sleeps_of_rounds e l :
  sleeps_of (concat (map round l) ++ abandon e)
  = map (fun n => backoff (Z.of_nat n)) l.
Proof.
  induction l as [|n l IH]; simpl; [reflexivity|].
  unfold sleeps_of in *. simpl. now rewrite IH.
Qed.

Lemma writes_of_rounds e l :
  writes_of (concat (map round l) ++ abandon e) = [].
Proof.
  induction l as [|n l IH]; simpl; [reflexivity|].
  unfold writes_of in *. simpl. now rewrite IH.
Qed.

Lemma prints_of_rounds e l :
  prints_of (concat (map round l) ++ abandon e)
  = [[Lit "[ERROR] "; Lit username; Lit ": "; FmtExn e]].
Proof.
  induction l as [|n l IH]; simpl; [reflexivity|].
  unfold prints_of in *. simpl. now rewrite IH.
Qed.

Lemma check_one_all_fail replies :
  0 <= Checker.retries self ->
  Forall failing replies ->
  (Z.to_nat (Checker.retries self) < length replies)%nat ->
  exists e tr,
    _check_one self c username replies = Some tr
    /\ tr = (concat (map round (seq 1 (Z.to_nat (Checker.retries self))))
             ++ abandon e)%list.
Proof.
  intros H0 Hf Hlen.
  destruct (loop_all_fail (Z.to_nat (Checker.retries self)) 0 replies)
    as (e & He); [lia | assumption | assumption |].
  exists e. eexists. split; [exact He | reflexivity].
Qed.

End RetryBound.

(** C3. When every attempt for an identifier raises a retryable error, the
    check makes exactly retries+1 requests and then stops: between request N
    and request N+1 it sleeps min(2^(N-1), 10), after the last one it prints
    one error line that names the identifier, and it writes nothing. *)
Theorem retry_bound
    (self : Checker.t) (c : client) (username : string)
    (replies : list http_reply) :
  0 <= Checker.retries self ->
  Forall (fun reply =>
            exists e, fetch_status_code c reply = Raised e /\ retryable e)
         replies ->
  (Z.to_nat (Checker.retries self) < length replies)%nat ->
  exists e tr,
    Checker._check_one self c username replies = Some tr
    /\ tr = (concat
               (map (fun n => [Checker.Request c (Checker.url_of username);
                               Checker.Sleep (Z.min (2 ^ (Z.of_nat n - 1)) 10)])
                    (seq 1 (Z.to_nat (Checker.retries self))))
             ++ [Checker.Request c (Checker.url_of username);
                 Checker.Print
                   [Lit "[ERROR] "; Lit username; Lit ": "; FmtExn e]])%list
    /\ length (List.filter is_request tr)
       = S (Z.to_nat (Checker.retries self))
    /\ sleeps_of tr
       = map (fun n => Z.min (2 ^ (Z.of_nat n - 1)) 10)
             (seq 1 (Z.to_nat (Checker.retries self)))
    /\ prints_of tr = [[Lit "[ERROR] "; Lit username; Lit ": "; FmtExn e]]
    /\ writes_of tr = [].
Proof.
  intros H0 Hf Hlen.
  destruct (check_one_all_fail self c username replies H0 Hf Hlen)
    as (e & tr & Hrun & ->).
  exists e. eexists. split; [exact Hrun|].
  split; [reflexivity|].
  split; [rewrite requests_of_rounds; now rewrite length_seq|].
  split; [apply sleeps_of_rounds|].
  split; [apply prints_of_rounds | apply writes_of_rounds].
Qed.

(** With a budget of three retries and a network that always times out,
    four requests are made. *)
Lemma retry_bound_witness :
  exists e tr,
    Checker._check_one (Checker.__init__ [] None None 50 3 "hits.txt" 30)
      Direct "alice" (repeat (HttpRaise (TimeoutError "")) 4) = Some tr
    /\ tr = (concat
               (map (fun n => [Checker.Request Direct (Checker.url_of "alice");
                               Checker.Sleep (Z.min (2 ^ (Z.of_nat n - 1)) 10)])
                    (seq 1 3))
             ++ [Checker.Request Direct (Checker.url_of "alice");
                 Checker.Print
                   [Lit "[ERROR] "; Lit "alice"; Lit ": "; FmtExn e]])%list
    /\ length (List.filter is_request tr) = 4%nat
    /\ sleeps_of tr = map (fun n => Z.min (2 ^ (Z.of_nat n - 1)) 10) (seq 1 3)
    /\ prints_of tr = [[Lit "[ERROR] "; Lit "alice"; Lit ": "; FmtExn e]]
    /\ writes_of tr = [].
Proof.
  apply (retry_bound (Checker.__init__ [] None None 50 3 "hits.txt" 30)
           Direct "alice" (repeat (HttpRaise (TimeoutError "")) 4)).
  - simpl. lia.
  - simpl.
    repeat (apply List.Forall_cons;
            [exists (TimeoutError ""); split; [reflexivity | exact I] |]).
    apply List.Forall_nil.
  - simpl. lia.
Defined.

(** ** The event loop *)

Section EventLoop.

Import Checker.

Variable self : Checker.t.

Lemma insert_split {A} (l : list A) i x y :
  l !! i = Some x ->
  exists l1 l2, l = (l1 ++ x :: l2)%list /\ <[i:=y]> l = (l1 ++ y :: l2)%list
                /\ length l1 = i.
Proof.
  intros H. exists (take i l), (drop (S i) l).
  pose proof (lookup_lt_Some _ _ _ H) as Hlt.
  split; [symmetry; now apply take_drop_middle|].
  split; [now apply insert_take_drop|].
  rewrite length_take. lia.
Qed.

Lemma count_insert {A} (f : A -> bool) (l : list A) i x y :
  l !! i = Some x ->
  (length (List.filter f (<[i:=y]> l)) + (if f x then 1 else 0)
   = length (List.filter f l) + (if f y then 1 else 0))%nat.
Proof.
  intros H. destruct (insert_split l i x y H) as (l1 & l2 & -> & -> & _).
  rewrite !List.filter_app, !length_app. simpl.
  destruct (f x), (f y); simpl; lia.
Qed.

(** The four ways a step can happen. *)
Lemma exec_cases s l s' :
  exec self s l = Some s' ->
  (exists i c tk,
      l = Acquire i /\ session s = Some c /\ tasks s !! i = Some tk
      /\ at_pc tk = AtLoopHead /\ 0 < sem_value s
      /\ s' = {| session := session s; sem_value := sem_value s - 1;
                 tasks := <[i := {| username := username tk;
                                    attempt := attempt tk + 1;
                                    at_pc := InFlight;
                                    holds_sem := true |}]> (tasks s);
                 stdout := stdout s; files := files s;
                 requests := (requests s ++ [(c, url_of (username tk))])%list |})
  \/ (exists i reply c tk,
      l = Reply i reply /\ session s = Some c /\ tasks s !! i = Some tk
      /\ at_pc tk = InFlight
      /\ s' = let e := after_fetch self (username tk) (attempt tk)
                         (fetch_status_code c reply) in
              {| session := session s; sem_value := sem_value s + 1;
                 tasks := <[i := {| username := username tk;
                                    attempt := attempt tk;
                                    at_pc := pc_of (next e);
                                    holds_sem := false |}]> (tasks s);
                 stdout := (stdout s ++ printed e)%list;
                 files := write_all (output_path self) (written e) (files s);
                 requests := requests s |})
  \/ (exists i tk d,
      l = Wake i /\ tasks s !! i = Some tk /\ at_pc tk = Sleeping d
      /\ s' = {| session := session s; sem_value := sem_value s;
                 tasks := <[i := {| username := username tk;
                                    attempt := attempt tk;
                                    at_pc := AtLoopHead;
                                    holds_sem := holds_sem tk |}]> (tasks s);
                 stdout := stdout s; files := files s;
                 requests := requests s |})
  \/ (exists i reply x c tk,
      l = WriteFails i reply x /\ session s = Some c /\ tasks s !! i = Some tk
      /\ at_pc tk = InFlight /\ reports_404 c reply = true
      /\ s' = let e := after_fetch_io self (username tk) (attempt tk)
                         (fetch_status_code c reply) (IoRaises x) in
              {| session := session s; sem_value := sem_value s + 1;
                 tasks := <[i := {| username := username tk;
                                    attempt := attempt tk;
                                    at_pc := pc_of (next e);
                                    holds_sem := false |}]> (tasks s);
                 stdout := (stdout s ++ printed e)%list;
                 files := files s;
                 requests := requests s |}).
Proof.
  destruct l as [i | i reply | i | i reply x]; simpl.
  - destruct (session s) as [c|] eqn:Hc; [|discriminate].
    destruct (tasks s !! i) as [tk|] eqn:Htk; [|discriminate].
    destruct (at_pc tk) eqn:Hpc; try discriminate.
    destruct (0 <? sem_value s) eqn:Hsem; [|discriminate].
    intros [= <-]. left. exists i, c, tk.
    apply Z.ltb_lt in Hsem. repeat split; assumption.
  - destruct (session s) as [c|] eqn:Hc; [|discriminate].
    destruct (tasks s !! i) as [tk|] eqn:Htk; [|discriminate].
    destruct (at_pc tk) eqn:Hpc; try discriminate.
    intros [= <-]. right. left. exists i, reply, c, tk.
    repeat split; assumption.
  - destruct (tasks s !! i) as [tk|] eqn:Htk; [|discriminate].
    destruct (at_pc tk) eqn:Hpc; try discriminate.
    intros [= <-]. right. right. left. exists i, tk, delay.
    repeat split; assumption.
  - destruct (session s) as [c|] eqn:Hc; [|discriminate].
    destruct (tasks s !! i) as [tk|] eqn:Htk; [|discriminate].
    destruct (at_pc tk) eqn:Hpc; try discriminate.
    destruct (reports_404 c reply) eqn:H404; [|discriminate].
    intros [= <-]. right. right. right. exists i, reply, x, c, tk.
    repeat split; assumption.
Qed.

(** What a failed write leaves behind: the line of the available
    identifier, then what the [except] clause does. *)
Lemma after_failed_write c reply u a x :
  reports_404 c reply = true ->
  after_fetch_io self u a (fetch_status_code c reply) (IoRaises x)
  = {| printed :=
         [Lit (ESC ++ "[32;1m[AVAILABLE]" ++ ESC ++ "[0m ")%string;
          Lit (url_of u)] :: printed (except_clause self u a x);
       written := [];
       next := next (except_clause self u a x) |}.
Proof.
  unfold reports_404, after_fetch_io.
  destruct (fetch_status_code c reply) as [status raw | e]; [|discriminate].
  now intros ->.
Qed.

(** How the [except] clause can end. *)
Lemma except_clause_shape u a x :
  let h := except_clause self u a x in
  written h = []
  /\ match next h with
     | SleepThenContinue d =>
         a <= Checker.retries self /\ d = Z.min (2 ^ (a - 1)) 10
         /\ printed h = []
     | Return => length (printed h) = 1%nat
     | Propagate y => printed h = [] /\ y = x
     end.
Proof.
  destruct x as [m | m | cls m]; simpl;
    try (destruct (Z.leb_spec a (Checker.retries self)); simpl);
    repeat split; auto.
Qed.

Lemma run_snoc s ls l :
  run self s (ls ++ [l])
  = match run self s ls with Some s' => exec self s' l | None => None end.
Proof.
  revert s. induction ls as [|l0 ls IH]; intros s; simpl.
  - now destruct (exec self s l).
  - destruct (exec self s l0); [apply IH | reflexivity].
Qed.

(** A property kept by every step holds all along a run. *)
Lemma run_invariant (P : state -> Prop) :
  (forall s l s', P s -> exec self s l = Some s' -> P s') ->
  forall ls s s', P s -> run self s ls = Some s' -> P s'.
Proof.
  intros Hstep. induction ls as [|l ls IH]; intros s s' HP; simpl.
  - intros [= <-]. exact HP.
  - destruct (exec self s l) as [s1|] eqn:E; [|discriminate].
    apply IH. eapply Hstep; eassumption.
Qed.

(** *** The semaphore *)

Lemma sem_inv_step s l s' :
  sem_inv self s -> exec self s l = Some s' -> sem_inv self s'.
Proof.
  intros (Hsum & Hpos & Hholds) Hexec.
  destruct (exec_cases _ _ _ Hexec)
    as [(i & c & tk & -> & Hc & Htk & Hpc & Hsem & ->)
       |[(i & reply & c & tk & -> & Hc & Htk & Hpc & ->)
        |[(i & tk & d & -> & Htk & Hpc & ->)
         |(i & reply & x & c & tk & -> & Hc & Htk & Hpc & H404 & ->)]]];
    unfold sem_inv, count_in_flight in *; cbn [sem_value tasks] in *.
  - pose proof (count_insert in_flight (tasks s) i tk
                  {| username := username tk; attempt := attempt tk + 1;
                     at_pc := InFlight; holds_sem := true |} Htk) as Hcnt.
    unfold in_flight at 2 4 in Hcnt. cbn [at_pc] in Hcnt. rewrite Hpc in Hcnt.
    repeat split; [lia | lia |].
    apply Forall_insert; [assumption | reflexivity].
  - set (e := after_fetch self (username tk) (attempt tk)
                (fetch_status_code c reply)) in *.
    pose proof (count_insert in_flight (tasks s) i tk
                  {| username := username tk; attempt := attempt tk;
                     at_pc := pc_of (next e); holds_sem := false |} Htk) as Hcnt.
    unfold in_flight at 2 4 in Hcnt. cbn [at_pc] in Hcnt. rewrite Hpc in Hcnt.
    assert (Hnot : match pc_of (next e) with InFlight => true | _ => false end
                   = false) by (destruct (next e); reflexivity).
    rewrite Hnot in Hcnt.
    repeat split; [lia | lia |].
    apply Forall_insert; [assumption |].
    unfold in_flight. cbn [at_pc holds_sem]. now rewrite Hnot.
  - pose proof (count_insert in_flight (tasks s) i tk
                  {| username := username tk; attempt := attempt tk;
                     at_pc := AtLoopHead; holds_sem := holds_sem tk |} Htk)
      as Hcnt.
    unfold in_flight at 2 4 in Hcnt. cbn [at_pc] in Hcnt. rewrite Hpc in Hcnt.
    repeat split; [lia | lia |].
    apply Forall_insert; [assumption |].
    rewrite Forall_forall in Hholds.
    assert (Hin : holds_sem tk = in_flight tk).
    { apply Hholds. eapply list_elem_of_lookup_2. exact Htk. }
    unfold in_flight in *. cbn [at_pc holds_sem]. now rewrite Hin, Hpc.
  - set (e := after_fetch_io self (username tk) (attempt tk)
                (fetch_status_code c reply) (IoRaises x)) in *.
    pose proof (count_insert in_flight (tasks s) i tk
                  {| username := username tk; attempt := attempt tk;
                     at_pc := pc_of (next e); holds_sem := false |} Htk) as Hcnt.
    unfold in_flight at 2 4 in Hcnt. cbn [at_pc] in Hcnt. rewrite Hpc in Hcnt.
    assert (Hnot : match pc_of (next e) with InFlight => true | _ => false end
                   = false) by (destruct (next e); reflexivity).
    rewrite Hnot in Hcnt.
    repeat split; [lia | lia |].
    apply Forall_insert; [assumption |].
    unfold in_flight. cbn [at_pc holds_sem]. now rewrite Hnot.
Qed.

End EventLoop.

(** ** What [start] sets up *)

Section Start.

Import Checker.

Variables (self : Checker.t) (out : list line) (fs : gmap string string).

Let valid_usernames : list string :=
  List.filter is_valid_instagram_username (to_check self).

Lemma start_tasks : tasks (start self out fs) = map create_task valid_usernames.
Proof.
  unfold start. fold valid_usernames.
  destruct valid_usernames; [reflexivity|].
  destruct (truthy_str (oxy_user self) && truthy_str (oxy_pass self));
    reflexivity.
Qed.

Lemma start_sem_value : sem_value (start self out fs) = sem self.
Proof.
  unfold start. fold valid_usernames.
  destruct valid_usernames; [reflexivity|].
  destruct (truthy_str (oxy_user self) && truthy_str (oxy_pass self));
    reflexivity.
Qed.

Lemma start_files : files (start self out fs) = fs.
Proof.
  unfold start. fold valid_usernames.
  destruct valid_usernames; [reflexivity|].
  destruct (truthy_str (oxy_user self) && truthy_str (oxy_pass self));
    reflexivity.
Qed.

Lemma start_requests : requests (start self out fs) = [].
Proof.
  unfold start. fold valid_usernames.
  destruct valid_usernames; [reflexivity|].
  destruct (truthy_str (oxy_user self) && truthy_str (oxy_pass self));
    reflexivity.
Qed.

Lemma start_session :
  session (start self out fs)
  = match valid_usernames with
    | [] => None
    | _ => if truthy_str (oxy_user self) && truthy_str (oxy_pass self)
           then Some Oxylabs else Some Direct
    end.
Proof.
  unfold start. fold valid_usernames.
  destruct valid_usernames; [reflexivity|].
  destruct (truthy_str (oxy_user self) && truthy_str (oxy_pass self));
    reflexivity.
Qed.

Lemma no_task_in_flight (us : list string) :
  List.filter in_flight (map create_task us) = [].
Proof. induction us; simpl; [reflexivity | assumption]. Qed.

Lemma start_sem_inv : 0 <= sem self -> sem_inv self (start self out fs).
Proof.
  intros H. unfold sem_inv, count_in_flight.
  rewrite start_tasks, start_sem_value, no_task_in_flight. simpl.
  repeat split; [lia | assumption |].
  apply Forall_forall. intros tk Hin.
  apply list_elem_of_fmap in Hin. destruct Hin as (u & -> & _). reflexivity.
Qed.

End Start.

(** C4. With concurrency limit C, at most max(1, C) requests are in flight
    at any moment of the batch: the free units of the semaphore and the tasks
    in flight always add up to max(1, C), and a task holds a unit exactly
    while its request is in flight, so not while it sleeps before a retry,
    not once it has classified the answer, and not before its request. *)
Theorem concurrency_bound
    (usernames : list string) (user pass : option string)
    (concurrency retries : Z) (path : string) (timeout : Z)
    (out : list line) (fs : gmap string string)
    (ls : list Checker.label) (s : Checker.state) :
  let self :=
    Checker.__init__ usernames user pass concurrency retries path timeout in
  Checker.run self (Checker.start self out fs) ls = Some s ->
  Z.of_nat (count_in_flight s) <= Z.max 1 concurrency
  /\ Checker.sem_value s + Z.of_nat (count_in_flight s) = Z.max 1 concurrency
  /\ (forall tk, tk ∈ Checker.tasks s ->
        (Checker.holds_sem tk = true <-> Checker.at_pc tk = Checker.InFlight))
  /\ (forall tk d, tk ∈ Checker.tasks s ->
        Checker.at_pc tk = Checker.Sleeping d -> Checker.holds_sem tk = false).
Proof.
  intros self Hrun.
  assert (Hinv : sem_inv self s).
  { eapply (run_invariant self (sem_inv self)); [| | exact Hrun].
    - intros s0 l s1. apply sem_inv_step.
    - apply start_sem_inv. simpl. lia. }
  destruct Hinv as (Hsum & Hpos & Hholds). simpl in Hsum.
  rewrite Forall_forall in Hholds.
  split; [lia|]. split; [exact Hsum|]. split.
  - intros tk Hin. rewrite (Hholds tk Hin). unfold in_flight.
    destruct (Checker.at_pc tk); split; congruence.
  - intros tk d Hin Hpc. rewrite (Hholds tk Hin). unfold in_flight.
    now rewrite Hpc.
Qed.

(** ** What is written to the output file *)

Section Hits.

Import Checker.

Variable self : Checker.t.

Lemma after_fetch_written u a r :
  let e := after_fetch self u a r in
  written e = []
  \/ (written e = [u] /\ next e = Return
      /\ exists status raw, r = Returned status raw /\ eq_int status 404 = true).
Proof.
  destruct r as [status raw | e]; simpl.
  - destruct (eq_int status 404) eqn:E.
    + right. repeat split. now exists status, raw.
    + left. now destruct (is_None status).
  - left. destruct e; simpl; try reflexivity;
      now destruct (a <=? Checker.retries self).
Qed.

Lemma usernames_insert (l : list task) i tk tk' :
  l !! i = Some tk -> username tk' = username tk ->
  map username (<[i := tk']> l) = map username l.
Proof.
  intros H Hu. destruct (insert_split l i tk tk' H) as (l1 & l2 & -> & -> & _).
  rewrite !map_app. simpl. now rewrite Hu.
Qed.

(** A step keeps the client and the identifiers of the tasks. *)
Lemma exec_frame s l s' :
  exec self s l = Some s' ->
  session s' = session s /\ map username (tasks s') = map username (tasks s).
Proof.
  intros Hexec.
  destruct (exec_cases self _ _ _ Hexec)
    as [(i & c & tk & -> & Hc & Htk & Hpc & Hsem & ->)
       |[(i & reply & c & tk & -> & Hc & Htk & Hpc & ->)
        |[(i & tk & d & -> & Htk & Hpc & ->)
         |(i & reply & x & c & tk & -> & Hc & Htk & Hpc & H404 & ->)]]];
    cbn [session tasks]; (split; [reflexivity|]);
    eapply usernames_insert; eauto.
Qed.

Lemma run_frame ls : forall s s',
  run self s ls = Some s' ->
  session s' = session s /\ map username (tasks s') = map username (tasks s).
Proof.
  induction ls as [|l ls IH]; intros s s'; simpl.
  - intros [= <-]. now split.
  - destruct (exec self s l) as [s1|] eqn:E; [|discriminate].
    intros Hrun. destruct (IH _ _ Hrun) as (H1 & H2).
    destruct (exec_frame _ _ _ E) as (H3 & H4). split; congruence.
Qed.

(** A step on task [i] leaves the finished tasks as they are. *)
Lemma finished_kept (l : list task) i tk tk' j tkj :
  l !! i = Some tk -> at_pc tk <> Finished ->
  l !! j = Some tkj -> at_pc tkj = Finished ->
  <[i := tk']> l !! j = Some tkj.
Proof.
  intros Hi Hpc Hj Hfin.
  destruct (decide (i = j)) as [->|Hne].
  - rewrite Hi in Hj. injection Hj as ->. contradiction.
  - rewrite list_lookup_insert_ne; assumption.
Qed.

Lemma hits_inv_kept c fs0 ls s hits l s' i tk tk' :
  hits_inv self c fs0 ls s hits ->
  tasks s !! i = Some tk -> at_pc tk <> Finished ->
  tasks s' = <[i := tk']> (tasks s) -> files s' = files s ->
  hits_inv self c fs0 (ls ++ [l]) s' hits.
Proof.
  intros (Hfiles & Hnodup & Hhits) Htk Hpc Htasks Hf.
  split; [congruence|]. split; [assumption|].
  intros j u Hin. destruct (Hhits j u Hin) as ((tkj & Hj & Hu & Hfin) & reply & Hr & H404).
  split.
  - exists tkj. rewrite Htasks. split; [|now split].
    eapply finished_kept; eassumption.
  - exists reply. split; [apply in_or_app; now left | assumption].
Qed.

Lemma hits_inv_step c fs0 ls s hits l s' :
  session s = c ->
  hits_inv self c fs0 ls s hits -> exec self s l = Some s' ->
  exists hits', hits_inv self c fs0 (ls ++ [l]) s' hits'.
Proof.
  intros Hsession Hinv Hexec.
  destruct (exec_cases self _ _ _ Hexec)
    as [(i & c' & tk & -> & Hc & Htk & Hpc & Hsem & ->)
       |[(i & reply & c' & tk & -> & Hc & Htk & Hpc & ->)
        |[(i & tk & d & -> & Htk & Hpc & ->)
         |(i & reply & x & c' & tk & -> & Hc & Htk & Hpc & H404 & ->)]]].
  - exists hits. eapply hits_inv_kept; eauto. congruence.
  - destruct (after_fetch_written (username tk) (attempt tk)
                (fetch_status_code c' reply))
      as [Hw | (Hw & Hnext & status & raw & Hret & H404)];
      cbv zeta in *.
    + exists hits. eapply hits_inv_kept; eauto; [congruence|].
      cbn [files]. now rewrite Hw.
    + exists (hits ++ [(i, username tk)])%list.
      destruct Hinv as (Hfiles & Hnodup & Hhits).
      split; [|split].
      * cbn [files]. rewrite Hw, Hfiles, map_app. simpl.
        now rewrite write_all_app.
      * rewrite map_app. simpl. apply NoDup_app. split; [assumption|].
        split; [|apply NoDup_singleton].
        intros j Hj Hji. apply list_elem_of_singleton in Hji. subst j.
        apply list_elem_of_In, in_map_iff in Hj.
        destruct Hj as ((j & u) & Hfst & Hin). simpl in Hfst. subst j.
        destruct (Hhits i u Hin) as ((tki & Hi & _ & Hfin) & _).
        rewrite Htk in Hi. injection Hi as <-. congruence.
      * intros j u Hin. apply in_app_or in Hin.
        destruct Hin as [Hin | [[= <- <-] | []]].
        -- destruct (Hhits j u Hin)
             as ((tkj & Hj & Hu & Hfin) & reply' & Hr & H404').
           split.
           ++ exists tkj. cbn [tasks]. split; [|now split].
              eapply finished_kept; eauto. congruence.
           ++ exists reply'. split; [apply in_or_app; now left | assumption].
        -- split.
           ++ eexists. cbn [tasks]. split.
              ** apply list_lookup_insert_eq. eapply lookup_lt_Some; eauto.
              ** cbn [username at_pc]. now rewrite Hnext.
           ++ exists reply. split; [apply in_or_app; right; now left|].
              subst c. rewrite Hc. unfold got_404. now rewrite Hret.
  - exists hits. eapply hits_inv_kept; eauto. congruence.
  - exists hits. eapply hits_inv_kept; eauto. congruence.
Qed.

Lemma hits_inv_run ls : forall s0 s,
  run self s0 ls = Some s ->
  exists hits, hits_inv self (session s0) (files s0) ls s hits.
Proof.
  induction ls as [|l ls IH] using rev_ind; intros s0 s.
  - simpl. intros [= <-]. exists []. repeat split.
    + apply NoDup_nil_2.
    + destruct H.
    + destruct H.
  - rewrite run_snoc. destruct (run self s0 ls) as [s1|] eqn:E; [|discriminate].
    intros Hexec. destruct (IH _ _ E) as (hits & Hinv).
    apply (hits_inv_step (session s0) (files s0) ls s1 hits l s);
      [now destruct (run_frame _ _ _ E) | exact Hinv | exact Hexec].
Qed.

Lemma NoDup_hits (us : list string) (hits : list (nat * string)) :
  NoDup us -> NoDup (map fst hits) ->
  (forall i u, In (i, u) hits -> us !! i = Some u) ->
  NoDup (map snd hits).
Proof.
  intros Hus. induction hits as [|[i u] hits IH]; simpl; intros Hnd Hlk.
  - apply NoDup_nil_2.
  - apply NoDup_cons in Hnd. destruct Hnd as (Hi & Hnd).
    apply NoDup_cons. split.
    + intros Hu. apply list_elem_of_In, in_map_iff in Hu.
      destruct Hu as ((j & u') & Hsnd & Hin). simpl in Hsnd. subst u'.
      assert (i = j).
      { eapply NoDup_lookup; [exact Hus | |]; apply Hlk; [now left | now right]. }
      subst j. apply Hi. apply list_elem_of_In, in_map_iff.
      exists (i, u). now split.
    + apply IH; [assumption|]. intros j u' Hin. apply Hlk. now right.
Qed.

End Hits.

(** ** The identifier source *)

Section OpenFile.

Lemma drop_duplicates_spec lines : forall (seen : gset string) result,
  (forall x, x ∈ seen <-> x ∈ result) -> NoDup result ->
  NoDup (drop_duplicates lines seen result)
  /\ forall x, x ∈ drop_duplicates lines seen result <-> x ∈ result \/ x ∈ lines.
Proof.
  induction lines as [|name rest IH]; intros seen result Hseen Hnd; simpl.
  - split; [assumption|]. intros x. rewrite elem_of_nil. tauto.
  - destruct (decide (name ∈ seen)) as [Hin|Hnin].
    + destruct (IH seen result Hseen Hnd) as (H1 & H2). split; [assumption|].
      intros x. rewrite H2, elem_of_cons. split; [tauto|].
      intros [?|[->|?]]; [tauto | left; now apply Hseen | tauto].
    + destruct (IH ({[name]} ∪ seen) (result ++ [name])%list) as (H1 & H2).
      * intros x. rewrite elem_of_union, elem_of_singleton, elem_of_app,
          list_elem_of_singleton, Hseen. tauto.
      * apply NoDup_app. split; [assumption|]. split; [|apply NoDup_singleton].
        intros x Hx Hx'. apply list_elem_of_singleton in Hx'. subst x.
        apply Hnin. now apply Hseen.
      * split; [assumption|]. intros x.
        rewrite H2, elem_of_app, list_elem_of_singleton, elem_of_cons. tauto.
Qed.

Lemma open_file_NoDup path file : NoDup (snd (open_file path file)).
Proof.
  destruct file as [content|]; simpl; [|apply NoDup_nil_2].
  apply drop_duplicates_spec; [|apply NoDup_nil_2].
  intros x. rewrite elem_of_empty, elem_of_nil. tauto.
Qed.

Lemma open_file_elem path file u :
  u ∈ snd (open_file path file) <->
  exists content l, file = Some content /\ In l content
                    /\ u = strip l /\ u <> "".
Proof.
  destruct file as [content|]; simpl.
  - destruct (drop_duplicates_spec
                (map strip
                   (List.filter (fun l => negb (String.eqb (strip l) "")) content))
                ∅ []) as (_ & H).
    + intros x. rewrite elem_of_empty, elem_of_nil. tauto.
    + apply NoDup_nil_2.
    + rewrite H, elem_of_nil, list_elem_of_In, in_map_iff. split.
      * intros [[] | (l & <- & Hl)]. apply filter_In in Hl.
        destruct Hl as (Hl & Hne). exists content, l.
        repeat split; [assumption|]. intros E. rewrite E in Hne. discriminate.
      * intros (content' & l & [= <-] & Hl & -> & Hne). right. exists l.
        split; [reflexivity|]. apply filter_In. split; [assumption|].
        destruct (String.eqb_spec (strip l) ""); [contradiction | reflexivity].
  - rewrite elem_of_nil. split; [tauto|]. intros (? & ? & [=] & _).
Qed.

End OpenFile.

Section Batch.

Import Checker.

Lemma usernames_created (us : list string) :
  map username (map create_task us) = us.
Proof. induction us; simpl; congruence. Qed.

Lemma lookup_map {A B} (f : A -> B) (l : list A) i x :
  l !! i = Some x -> map f l !! i = Some (f x).
Proof.
  revert i. induction l as [|y l IH]; intros [|i]; simpl; try discriminate.
  - now intros [= ->].
  - apply IH.
Qed.

End Batch.

(** C1. Whatever the input file holds and whatever the network answers, the
    output file ends up with the writes of some identifiers [ws] appended to
    what it held, one line each; no identifier is written twice; each of
    them is one of the deduplicated input identifiers and is valid; and each
    was written because an answer delivered to its task made the client
    report status 404. *)
Theorem written_identifiers
    (args : Namespace) (file : option (list string))
    (fs : gmap string string) (ls : list Checker.label) (s : Checker.state) :
  Checker.run (checker_of args file) (amain args file fs) ls = Some s ->
  let identifiers := snd (open_file (input args) file) in
  let valid := List.filter is_valid_instagram_username identifiers in
  NoDup identifiers
  /\ exists ws : list string,
       Checker.files s = Checker.write_all (output args) ws fs
       /\ NoDup ws
       /\ forall u, In u ws ->
            In u identifiers
            /\ is_valid_instagram_username u = true
            /\ exists i reply,
                 valid !! i = Some u
                 /\ In (Checker.Reply i reply) ls
                 /\ got_404 (Checker.session (amain args file fs)) reply = true.
Proof.
  intros Hrun identifiers valid.
  split; [apply open_file_NoDup|].
  destruct (hits_inv_run _ _ _ _ Hrun) as (hits & Hfiles & Hnd & Hhits).
  destruct (run_frame _ _ _ _ Hrun) as (_ & Hus).
  unfold amain in Hus, Hfiles. rewrite start_tasks, usernames_created in Hus.
  rewrite start_files in Hfiles. cbn [checker_of Checker.__init__
    Checker.to_check Checker.output_path] in Hus, Hfiles.
  fold identifiers in Hus. fold valid in Hus.
  assert (Hlk : forall i u, In (i, u) hits -> valid !! i = Some u).
  { intros i u Hin. destruct (Hhits i u Hin) as ((tk & Htk & <- & _) & _).
    rewrite <- Hus. now apply lookup_map. }
  exists (map snd hits). split; [exact Hfiles|]. split.
  - apply (NoDup_hits valid); [|assumption|assumption].
    apply NoDup_ListNoDup, List.NoDup_filter, NoDup_ListNoDup,
      open_file_NoDup.
  - intros u Hu. apply in_map_iff in Hu.
    destruct Hu as ((i & u') & Hsnd & Hin). simpl in Hsnd. subst u'.
    pose proof (Hlk i u Hin) as Hi.
    assert (Hv : In u valid).
    { apply list_elem_of_In. eapply list_elem_of_lookup_2. exact Hi. }
    apply filter_In in Hv. destruct Hv as (Hid & Hvalid).
    split; [assumption|]. split; [assumption|].
    destruct (Hhits i u Hin) as (_ & reply & Hr & H404).
    exists i, reply. repeat split; assumption.
Qed.

(** The batch of the specification: the file holds "alice", "alice" and
    "bob!", the direct client answers 404 for "alice". *)
Lemma written_identifiers_witness :
  exists s,
    Checker.run
      (checker_of {| input := "usernames.txt"; output := "hits.txt";
                     concurrency := 2; retries := 3; timeout := 30;
                     oxylabs_username := None; oxylabs_password := None |}
                  (Some ["alice"; "alice"; "bob!"]))
      (amain {| input := "usernames.txt"; output := "hits.txt";
                concurrency := 2; retries := 3; timeout := 30;
                oxylabs_username := None; oxylabs_password := None |}
             (Some ["alice"; "alice"; "bob!"]) ∅)
      [Checker.Acquire 0; Checker.Reply 0 (HttpResponse 404 None)] = Some s
    /\ Checker.files s !! "hits.txt" = Some ("alice" ++ NL)%string
    /\ NoDup (snd (open_file "usernames.txt" (Some ["alice"; "alice"; "bob!"])))
    /\ exists ws : list string,
         Checker.files s = Checker.write_all "hits.txt" ws ∅
         /\ NoDup ws
         /\ forall u, In u ws ->
              In u (snd (open_file "usernames.txt"
                           (Some ["alice"; "alice"; "bob!"])))
              /\ is_valid_instagram_username u = true
              /\ exists i reply,
                   List.filter is_valid_instagram_username
                     (snd (open_file "usernames.txt"
                             (Some ["alice"; "alice"; "bob!"]))) !! i = Some u
                   /\ In (Checker.Reply i reply)
                        [Checker.Acquire 0;
                         Checker.Reply 0 (HttpResponse 404 None)]
                   /\ got_404 (Some Direct) reply = true.
Proof.
  eexists. split; [vm_compute; reflexivity|].
  split; [vm_compute; reflexivity|].
  apply (written_identifiers
           {| input := "usernames.txt"; output := "hits.txt";
              concurrency := 2; retries := 3; timeout := 30;
              oxylabs_username := None; oxylabs_password := None |}
           (Some ["alice"; "alice"; "bob!"]) ∅
           [Checker.Acquire 0; Checker.Reply 0 (HttpResponse 404 None)]).
  vm_compute. reflexivity.
Defined.

(** Three identifiers, two units: the third task cannot send its request
    while the first two are in flight. *)
Lemma concurrency_bound_witness :
  exists s,
    Checker.run
      (Checker.__init__ ["alice"; "bob"; "carl"] None None 2 3 "hits.txt" 30)
      (Checker.start
         (Checker.__init__ ["alice"; "bob"; "carl"] None None 2 3 "hits.txt" 30)
         [] ∅)
      [Checker.Acquire 0; Checker.Acquire 1] = Some s
    /\ Checker.exec
         (Checker.__init__ ["alice"; "bob"; "carl"] None None 2 3 "hits.txt" 30)
         s (Checker.Acquire 2) = None
    /\ Z.of_nat (count_in_flight s) <= Z.max 1 2
    /\ Checker.sem_value s + Z.of_nat (count_in_flight s) = Z.max 1 2
    /\ (forall tk, tk ∈ Checker.tasks s ->
          (Checker.holds_sem tk = true <-> Checker.at_pc tk = Checker.InFlight))
    /\ (forall tk d, tk ∈ Checker.tasks s ->
          Checker.at_pc tk = Checker.Sleeping d -> Checker.holds_sem tk = false).
Proof.
  eexists. split; [vm_compute; reflexivity|].
  split; [vm_compute; reflexivity|].
  apply (concurrency_bound ["alice"; "bob"; "carl"] None None 2 3 "hits.txt" 30
           [] ∅ [Checker.Acquire 0; Checker.Acquire 1]).
  vm_compute. reflexivity.
Defined.

(** ** The orchestration in [start] *)

Section Orchestration.

Import Checker.

Variable self : Checker.t.

Lemma skipped_invalid (l : list string) :
  List.filter
    (fun u => negb (existsb (String.eqb u)
                      (List.filter is_valid_instagram_username l))) l
  = List.filter (fun u => negb (is_valid_instagram_username u)) l.
Proof.
  apply filter_ext_in. intros a Ha. f_equal.
  destruct (is_valid_instagram_username a) eqn:Hv.
  - apply existsb_exists. exists a. split; [|apply String.eqb_refl].
    apply filter_In. now split.
  - destruct (existsb _ _) eqn:E; [|reflexivity].
    apply existsb_exists in E. destruct E as (x & Hx & Heq).
    apply String.eqb_eq in Heq. subst x.
    apply filter_In in Hx. destruct Hx as (_ & Hx). congruence.
Qed.

Lemma start_stdout out fs :
  stdout (start self out fs)
  = (out ++ skip_report self
     ++ [match List.filter is_valid_instagram_username (to_check self) with
         | [] => [Lit "[i] No valid usernames to check."]
         | _ => if truthy_str (oxy_user self) && truthy_str (oxy_pass self)
                then oxylabs_line else direct_line
         end])%list.
Proof.
  unfold start, skip_report. rewrite skipped_invalid.
  destruct (List.filter (fun u => negb (is_valid_instagram_username u))
              (to_check self));
    destruct (List.filter is_valid_instagram_username (to_check self));
    try destruct (truthy_str (oxy_user self) && truthy_str (oxy_pass self));
    cbn [stdout]; rewrite <- ?app_assoc; reflexivity.
Qed.

Lemma truthy_str_supplied x : truthy_str x = true <-> supplied x.
Proof.
  unfold supplied. destruct x as [s|]; simpl.
  - destruct (String.eqb_spec s ""); simpl; split.
    + discriminate.
    + intros (s' & [= <-] & Hne). contradiction.
    + intros _. now exists s.
    + reflexivity.
  - split; [discriminate | intros (s & [=] & _)].
Qed.

Lemma except_clause_not_choice u a x :
  Forall (fun l => is_choice_line l = false)
         (printed (except_clause self u a x)).
Proof.
  destruct x; simpl; try destruct (a <=? Checker.retries self);
    repeat constructor.
Qed.

Lemma after_fetch_io_not_choice u a r o :
  Forall (fun l => is_choice_line l = false)
         (printed (after_fetch_io self u a r o)).
Proof.
  destruct r as [status raw | e]; simpl.
  - destruct (eq_int status 404); [|destruct (is_None status)];
      try (repeat constructor; fail).
    destruct o as [|x]; simpl; [repeat constructor|].
    constructor; [reflexivity | apply except_clause_not_choice].
  - apply except_clause_not_choice.
Qed.

Lemma after_fetch_not_choice u a r :
  Forall (fun l => is_choice_line l = false)
         (printed (after_fetch self u a r)).
Proof. apply after_fetch_io_not_choice. Qed.

(** Every request goes through the client of the session, and the tasks
    print no line about the choice of the client. *)
Lemma choice_step c base s l s' :
  (session s = c
   /\ Forall (fun r => Some (fst r) = c) (requests s)
   /\ exists more, stdout s = (base ++ more)%list
                   /\ Forall (fun l => is_choice_line l = false) more) ->
  exec self s l = Some s' ->
  session s' = c
  /\ Forall (fun r => Some (fst r) = c) (requests s')
  /\ exists more, stdout s' = (base ++ more)%list
                  /\ Forall (fun l => is_choice_line l = false) more.
Proof.
  intros (Hs & Hreq & more & Hout & Hmore) Hexec.
  destruct (exec_cases self _ _ _ Hexec)
    as [(i & c' & tk & -> & Hc & Htk & Hpc & Hsem & ->)
       |[(i & reply & c' & tk & -> & Hc & Htk & Hpc & ->)
        |[(i & tk & d & -> & Htk & Hpc & ->)
         |(i & reply & x & c' & tk & -> & Hc & Htk & Hpc & H404 & ->)]]];
    cbn [session requests stdout]; (split; [assumption|]).
  - split; [|now exists more].
    apply Forall_app. split; [assumption|].
    apply Forall_singleton. simpl. congruence.
  - split; [assumption|].
    exists (more ++ printed (after_fetch self (username tk) (attempt tk)
                               (fetch_status_code c' reply)))%list.
    split; [rewrite Hout; now rewrite app_assoc|].
    apply Forall_app. split; [assumption | apply after_fetch_not_choice].
  - split; [assumption | now exists more].
  - split; [assumption|].
    exists (more ++ printed (after_fetch_io self (username tk) (attempt tk)
                               (fetch_status_code c' reply) (IoRaises x)))%list.
    split; [rewrite Hout; now rewrite app_assoc|].
    apply Forall_app. split; [assumption | apply after_fetch_io_not_choice].
Qed.

Lemma start_halted out fs l :
  List.filter is_valid_instagram_username (to_check self) = [] ->
  exec self (start self out fs) l = None.
Proof.
  intros Hv. unfold start. rewrite Hv.
  destruct l as [i | i reply | i | i reply x]; reflexivity.
Qed.

Lemma choice_run out fs ls s :
  run self (start self out fs) ls = Some s ->
  session s = session (start self out fs)
  /\ Forall (fun r => Some (fst r) = session (start self out fs)) (requests s)
  /\ exists more,
       stdout s = (stdout (start self out fs) ++ more)%list
       /\ Forall (fun l => is_choice_line l = false) more.
Proof.
  intros Hrun.
  refine (run_invariant self
            (fun s =>
               session s = session (start self out fs)
               /\ Forall (fun r => Some (fst r) = session (start self out fs))
                         (requests s)
               /\ exists more,
                    stdout s = (stdout (start self out fs) ++ more)%list
                    /\ Forall (fun l => is_choice_line l = false) more)
            _ ls (start self out fs) s _ Hrun).
  - intros s1 l s2. apply choice_step.
  - split; [reflexivity|]. split; [rewrite start_requests; constructor|].
    exists []. split; [now rewrite app_nil_r | constructor].
Qed.

Lemma start_choice out fs :
  List.filter is_valid_instagram_username (to_check self) <> [] ->
  session (start self out fs)
  = Some (if truthy_str (oxy_user self) && truthy_str (oxy_pass self)
          then Oxylabs else Direct)
  /\ stdout (start self out fs)
     = (out ++ skip_report self
        ++ [if truthy_str (oxy_user self) && truthy_str (oxy_pass self)
            then oxylabs_line else direct_line])%list.
Proof.
  intros Hv. rewrite start_session, start_stdout.
  destruct (List.filter is_valid_instagram_username (to_check self));
    [contradiction|].
  split; [|reflexivity].
  now destruct (truthy_str (oxy_user self) && truthy_str (oxy_pass self)).
Qed.

End Orchestration.

(** The filter reports the skipped identifiers first: with the one identifier
    "bob!" the count of skipped identifiers is printed, then the final
    message. *)
Example start_only_invalid :
  Checker.stdout
    (Checker.start (Checker.__init__ ["bob!"] None None 50 3 "hits.txt" 30)
                   [] ∅)
  = [[Lit "[i] Skipping "; Fmt (JInt 1); Lit " invalid usernames"];
     [Lit "[i] No valid usernames to check."]].
Proof. vm_compute. reflexivity. Qed.

(** With no identifier at all nothing is skipped, and the final message is
    the only line. *)
Example start_no_input :
  Checker.stdout
    (Checker.start (Checker.__init__ [] None None 50 3 "hits.txt" 30) [] ∅)
  = [[Lit "[i] No valid usernames to check."]].
Proof. vm_compute. reflexivity. Qed.

(** C9. When the filter leaves no valid identifier, [start] ends at once
    with the one message that there is nothing to check, printed once and
    last, after the filter's count of skipped identifiers if any were
    skipped: no client is built, no task is created, no request is sent, the
    files are untouched and no step can follow. *)
Theorem no_valid_identifiers
    (self : Checker.t) (out : list line) (fs : gmap string string) :
  List.filter is_valid_instagram_username (Checker.to_check self) = [] ->
  let s0 := Checker.start self out fs in
  Checker.stdout s0
  = (out ++ skip_report self ++ [[Lit "[i] No valid usernames to check."]])%list
  /\ Checker.session s0 = None
  /\ Checker.tasks s0 = []
  /\ Checker.requests s0 = []
  /\ Checker.files s0 = fs
  /\ (forall l, Checker.exec self s0 l = None)
  /\ (forall ls s, Checker.run self s0 ls = Some s -> s = s0).
Proof.
  intros Hv s0. subst s0.
  split; [rewrite start_stdout, Hv; reflexivity|].
  split; [rewrite start_session, Hv; reflexivity|].
  split; [rewrite start_tasks, Hv; reflexivity|].
  split; [apply start_requests|].
  split; [apply start_files|].
  split; [intros l; now apply start_halted|].
  intros [|l ls] s; simpl.
  - now intros [= <-].
  - now rewrite start_halted.
Qed.

(** The input holds only "bob!" and ".x". *)
Lemma no_valid_identifiers_witness :
  let self := Checker.__init__ ["bob!"; ".x"] None None 50 3 "hits.txt" 30 in
  let s0 := Checker.start self [] ∅ in
  Checker.stdout s0
  = ([] ++ skip_report self ++ [[Lit "[i] No valid usernames to check."]])%list
  /\ Checker.session s0 = None
  /\ Checker.tasks s0 = []
  /\ Checker.requests s0 = []
  /\ Checker.files s0 = ∅
  /\ (forall l, Checker.exec self s0 l = None)
  /\ (forall ls s, Checker.run self s0 ls = Some s -> s = s0).
Proof.
  apply (no_valid_identifiers
           (Checker.__init__ ["bob!"; ".x"] None None 50 3 "hits.txt" 30) [] ∅).
  vm_compute. reflexivity.
Defined.

(** C8, as stated, fails: with both credentials and the one identifier
    "bob!", which is not valid, [start] returns before it chooses, and no
    client is built. *)
Lemma no_transport_without_valid_identifier :
  ~ transport_chosen_for_every_batch.
Proof.
  intros H.
  destruct (H (Checker.__init__ ["bob!"] (Some "user") (Some "secret") 50 3
                 "hits.txt" 30) [] ∅) as ((_ & Hboth) & _).
  assert (Hs : Checker.session
                 (Checker.start
                    (Checker.__init__ ["bob!"] (Some "user") (Some "secret")
                       50 3 "hits.txt" 30) [] ∅)
               = Some Oxylabs).
  { apply Hboth. split; eexists; (split; [reflexivity | discriminate]). }
  vm_compute in Hs. discriminate Hs.
Qed.

(** C8, amended.  With at least one valid identifier, [start] builds the
    Oxylabs client exactly when a username and a password are both supplied,
    and the direct client otherwise; it prints the matching line, the direct one warning
    that results may be inaccurate; and for the rest of the batch the client
    stays the same, every request goes through it, and no further line about
    the choice is printed. *)
Theorem transport_selection
    (self : Checker.t) (out : list line) (fs : gmap string string) :
  List.filter is_valid_instagram_username (Checker.to_check self) <> [] ->
  let s0 := Checker.start self out fs in
  (Checker.session s0 = Some Oxylabs
   <-> supplied (Checker.oxy_user self) /\ supplied (Checker.oxy_pass self))
  /\ (Checker.session s0 = Some Direct
      <-> ~ (supplied (Checker.oxy_user self)
             /\ supplied (Checker.oxy_pass self)))
  /\ (Checker.session s0 = Some Oxylabs ->
      Checker.stdout s0 = (out ++ skip_report self ++ [oxylabs_line])%list)
  /\ (Checker.session s0 = Some Direct ->
      Checker.stdout s0 = (out ++ skip_report self ++ [direct_line])%list)
  /\ forall ls s, Checker.run self s0 ls = Some s ->
       Checker.session s = Checker.session s0
       /\ Forall (fun r => Some (fst r) = Checker.session s0)
                 (Checker.requests s)
       /\ exists more,
            Checker.stdout s = (Checker.stdout s0 ++ more)%list
            /\ Forall (fun l => is_choice_line l = false) more.
Proof.
  intros Hv s0. subst s0.
  destruct (start_choice self out fs Hv) as (Hsession & Hstdout).
  assert (Hboth : Checker.truthy_str (Checker.oxy_user self)
                  && Checker.truthy_str (Checker.oxy_pass self) = true
                  <-> supplied (Checker.oxy_user self)
                      /\ supplied (Checker.oxy_pass self)).
  { rewrite andb_true_iff, !truthy_str_supplied. reflexivity. }
  split; [|split; [|split; [|split; [|exact (choice_run self out fs)]]]];
    rewrite Hsession; try rewrite Hstdout;
    destruct (Checker.truthy_str (Checker.oxy_user self)
              && Checker.truthy_str (Checker.oxy_pass self)).
  - split; [intros _; now apply Hboth | reflexivity].
  - split; [discriminate | intros Hs; apply Hboth in Hs; discriminate].
  - split; [discriminate | intros Hn; contradiction Hn; now apply Hboth].
  - split; [intros _ Hs; apply Hboth in Hs; discriminate | reflexivity].
  - reflexivity.
  - discriminate.
  - discriminate.
  - reflexivity.
Qed.

(** Both credentials are given. *)
Lemma transport_selection_witness :
  let self :=
    Checker.__init__ ["alice"] (Some "user") (Some "secret") 50 3 "hits.txt" 30
  in
  let s0 := Checker.start self [] ∅ in
  (Checker.session s0 = Some Oxylabs
   <-> supplied (Checker.oxy_user self) /\ supplied (Checker.oxy_pass self))
  /\ (Checker.session s0 = Some Direct
      <-> ~ (supplied (Checker.oxy_user self)
             /\ supplied (Checker.oxy_pass self)))
  /\ (Checker.session s0 = Some Oxylabs ->
      Checker.stdout s0 = ([] ++ skip_report self ++ [oxylabs_line])%list)
  /\ (Checker.session s0 = Some Direct ->
      Checker.stdout s0 = ([] ++ skip_report self ++ [direct_line])%list)
  /\ forall ls s, Checker.run self s0 ls = Some s ->
       Checker.session s = Checker.session s0
       /\ Forall (fun r => Some (fst r) = Checker.session s0)
                 (Checker.requests s)
       /\ exists more,
            Checker.stdout s = (Checker.stdout s0 ++ more)%list
            /\ Forall (fun l => is_choice_line l = false) more.
Proof.
  apply (transport_selection
           (Checker.__init__ ["alice"] (Some "user") (Some "secret") 50 3
              "hits.txt" 30) [] ∅).
  vm_compute. intros H. discriminate H.
Defined.

(** ** Progress *)

Section Progress.

Import Checker.

Variable self : Checker.t.

Lemma in_flight_exists s :
  (0 < count_in_flight s)%nat ->
  exists j tk, tasks s !! j = Some tk /\ at_pc tk = InFlight.
Proof.
  unfold count_in_flight. intros H.
  destruct (List.filter in_flight (tasks s)) as [|tk l] eqn:F;
    [simpl in H; lia|].
  assert (Hin : In tk (List.filter in_flight (tasks s)))
    by (rewrite F; now left).
  apply filter_In in Hin. destruct Hin as (Hin & Hfl).
  apply list_elem_of_In, list_elem_of_lookup_1 in Hin. destruct Hin as (j & Hj).
  exists j, tk. split; [assumption|].
  unfold in_flight in Hfl. destruct (at_pc tk); (reflexivity || discriminate).
Qed.

(** While a task is left to run and a client is open, some step can happen:
    a request can be sent, an answer can be delivered or a sleep can end. *)
Lemma enabled_step s :
  sem_inv self s -> 1 <= sem self -> session s <> None ->
  (exists tk, tk ∈ tasks s /\ terminal tk = false) ->
  exists l s', exec self s l = Some s'.
Proof.
  intros (Hsum & Hpos & _) Hcap Hsession (tk & Hin & Hterm).
  destruct (session s) as [c|] eqn:Hc; [|contradiction].
  apply list_elem_of_lookup_1 in Hin. destruct Hin as (i & Hi).
  destruct (at_pc tk) eqn:Hpc.
  - destruct (Z.ltb_spec 0 (sem_value s)) as [Hfree|Hfull].
    + exists (Acquire i). unfold exec. rewrite Hc, Hi, Hpc.
      replace (0 <? sem_value s) with true by (symmetry; now apply Z.ltb_lt).
      eexists. reflexivity.
    + destruct (in_flight_exists s) as (j & tkj & Hj & Hpcj); [lia|].
      exists (Reply j (HttpRaise (TimeoutError ""))). unfold exec.
      rewrite Hc, Hj, Hpcj. eexists. reflexivity.
  - exists (Reply i (HttpRaise (TimeoutError ""))). unfold exec.
    rewrite Hc, Hi, Hpc. eexists. reflexivity.
  - exists (Wake i). unfold exec. rewrite Hi, Hpc. eexists. reflexivity.
  - unfold terminal in Hterm. rewrite Hpc in Hterm. discriminate.
  - unfold terminal in Hterm. rewrite Hpc in Hterm. discriminate.
Qed.

Lemma started_session out fs ls s :
  run self (start self out fs) ls = Some s ->
  tasks s <> [] -> session s <> None.
Proof.
  intros Hrun Hne. destruct (run_frame self _ _ _ Hrun) as (Hs & Hus).
  rewrite Hs, start_session. rewrite start_tasks, usernames_created in Hus.
  destruct (List.filter is_valid_instagram_username (to_check self)).
  - destruct (tasks s); [contradiction | discriminate].
  - now destruct (truthy_str (oxy_user self) && truthy_str (oxy_pass self)).
Qed.

Lemma first_step out fs :
  1 <= sem self ->
  List.filter is_valid_instagram_username (to_check self) <> [] ->
  exists s', exec self (start self out fs) (Acquire 0) = Some s'.
Proof.
  intros Hcap Hv. unfold exec.
  rewrite start_session, start_tasks, start_sem_value.
  destruct (List.filter is_valid_instagram_username (to_check self));
    [contradiction|].
  replace (0 <? sem self) with true by (symmetry; apply Z.ltb_lt; lia).
  destruct (truthy_str (oxy_user self) && truthy_str (oxy_pass self));
    simpl; eexists; reflexivity.
Qed.

End Progress.

(** C10. The constructor clamps instead of failing: the semaphore starts at
    max(1, concurrency), which is at least 1, and the retry budget is
    max(0, retries), which is not negative.  So a batch with a valid
    identifier can send its first request, no reachable state with a task
    left to run is stuck, and a check whose attempts all fail makes
    max(0, retries)+1 requests, also for negative configured values. *)
Theorem init_clamps
    (usernames : list string) (user pass : option string)
    (concurrency retries : Z) (path : string) (timeout : Z) :
  let self :=
    Checker.__init__ usernames user pass concurrency retries path timeout in
  Checker.sem self = Z.max 1 concurrency
  /\ 1 <= Checker.sem self
  /\ Checker.retries self = Z.max 0 retries
  /\ 0 <= Checker.retries self
  /\ (forall out fs,
        List.filter is_valid_instagram_username usernames <> [] ->
        exists s',
          Checker.exec self (Checker.start self out fs) (Checker.Acquire 0)
          = Some s')
  /\ (forall out fs ls s,
        Checker.run self (Checker.start self out fs) ls = Some s ->
        (exists tk, tk ∈ Checker.tasks s /\ terminal tk = false) ->
        exists l s', Checker.exec self s l = Some s')
  /\ (forall c username replies,
        Forall (fun reply =>
                  exists e, fetch_status_code c reply = Raised e /\ retryable e)
               replies ->
        (Z.to_nat (Z.max 0 retries) < length replies)%nat ->
        exists tr,
          Checker._check_one self c username replies = Some tr
          /\ length (List.filter is_request tr)
             = S (Z.to_nat (Z.max 0 retries))).
Proof.
  intros self.
  split; [reflexivity|]. split; [simpl; lia|].
  split; [reflexivity|]. split; [simpl; lia|].
  split; [|split].
  - intros out fs Hv. apply first_step; [simpl; lia | exact Hv].
  - intros out fs ls s Hrun Hleft.
    apply enabled_step; [| simpl; lia | | exact Hleft].
    + eapply (run_invariant self (sem_inv self)); [| | exact Hrun].
      * intros s0 l s1. apply sem_inv_step.
      * apply start_sem_inv. simpl. lia.
    + eapply started_session; [exact Hrun|].
      destruct Hleft as (tk & Hin & _). intros E. rewrite E in Hin.
      now apply elem_of_nil in Hin.
  - intros c username replies Hf Hlen.
    destruct (check_one_all_fail self c username replies)
      as (e & tr & Hrun & ->); [simpl; lia | exact Hf | exact Hlen |].
    eexists. split; [exact Hrun|].
    rewrite requests_of_rounds, length_seq. reflexivity.
Qed.

(** * Further properties

    Properties of [open_file], [write_file], the two clients, [_check_one]
    and the batch that [start] and [amain] set up.  A run of the event loop
    is the life of a batch as long as no task is cancelled: what asyncio
    does once an exception has left [gather], or on an interrupt, is not
    part of a run. *)

(** ** Stripping *)

Section Strip.

Lemma append_nil_l (s : string) : ("" ++ s)%string = s.
Proof. reflexivity. Qed.

Lemma append_cons c (a b : string) :
  (String c a ++ b)%string = String c (a ++ b)%string.
Proof. reflexivity. Qed.



Lemma append_not_nil (front : string) c :
  (front ++ String c "")%string <> "".
Proof. destruct front; discriminate. Qed.

Lemma all_space_app a b :
  all_space (a ++ b)%string = all_space a && all_space b.
Proof.
  induction a as [|c a IH]; [reflexivity|].
  rewrite append_cons. simpl. rewrite IH. now rewrite andb_assoc.
Qed.

Lemma lstrip_split s :
  exists a, s = (a ++ lstrip s)%string /\ all_space a = true.
Proof.
  induction s as [|c s (a & Ha & Hs)]; simpl.
  - now exists "".
  - destruct (isspace c) eqn:E.
    + exists (String c a). rewrite append_cons. simpl. rewrite E, Hs.
      split; [congruence | reflexivity].
    + now exists "".
Qed.

Lemma lstrip_head s c rest : lstrip s = String c rest -> isspace c = false.
Proof.
  induction s as [|a s IH]; simpl; [discriminate|].
  destruct (isspace a) eqn:E; [assumption|]. now intros [= <- _].
Qed.

Lemma rstrip_split s :
  exists b, s = (rstrip s ++ b)%string /\ all_space b = true.
Proof.
  induction s as [|c s (b & Hb & Hs)]; simpl.
  - now exists "".
  - destruct (rstrip s) as [|k ks] eqn:E.
    + rewrite append_nil_l in Hb. destruct (isspace c) eqn:Ec.
      * exists (String c b). rewrite append_nil_l. simpl. rewrite Ec, Hs.
        split; [congruence | reflexivity].
      * exists b. rewrite append_cons, append_nil_l.
        split; [congruence | assumption].
    + exists b. rewrite append_cons. split; [congruence | assumption].
Qed.

Lemma rstrip_last s : forall front c,
  rstrip s = (front ++ String c "")%string -> isspace c = false.
Proof.
  induction s as [|a s IH]; intros front c; simpl.
  - intros H. symmetry in H. now apply append_not_nil in H.
  - destruct (rstrip s) as [|k ks] eqn:E.
    + destruct (isspace a) eqn:Ea.
      * intros H. symmetry in H. now apply append_not_nil in H.
      * destruct front as [|f front];
          rewrite ?append_cons, ?append_nil_l.
        -- now intros [= <-].
        -- intros [= _ H]. symmetry in H. now apply append_not_nil in H.
    + destruct front as [|f front];
        rewrite ?append_cons, ?append_nil_l; [discriminate|].
      intros [= _ H]. now apply (IH front).
Qed.

Lemma rstrip_head c rest :
  isspace c = false -> exists kept, rstrip (String c rest) = String c kept.
Proof.
  intros E. simpl. destruct (rstrip rest); [rewrite E|]; eexists; reflexivity.
Qed.

Lemma lstrip_fixed s :
  (forall c rest, s = String c rest -> isspace c = false) -> lstrip s = s.
Proof.
  destruct s as [|c s]; simpl; [reflexivity|].
  intros H. now rewrite (H c s eq_refl).
Qed.

Lemma rstrip_fixed s :
  (forall front c, s = (front ++ String c "")%string -> isspace c = false) ->
  rstrip s = s.
Proof.
  induction s as [|a s IH]; intros H; simpl; [reflexivity|].
  rewrite IH.
  - destruct s; [|reflexivity]. now rewrite (H "" a eq_refl).
  - intros front c ->. apply (H (String a front) c). reflexivity.
Qed.

Lemma strip_trimmed s : trimmed (strip s).
Proof.
  unfold trimmed, strip. split.
  - intros c rest H. destruct (lstrip s) as [|k ks] eqn:E; [discriminate|].
    pose proof (lstrip_head _ _ _ E) as Hk.
    destruct (rstrip_head k ks Hk) as (kept & Hkept).
    rewrite Hkept in H. now injection H as <- _.
  - intros front c H. now apply (rstrip_last _ _ _ H).
Qed.

Lemma trimmed_strip s : trimmed s -> strip s = s.
Proof.
  intros (Hl & Hr). unfold strip. rewrite (lstrip_fixed s Hl).
  now apply rstrip_fixed.
Qed.

End Strip.

(** [strip] cuts whitespace, and only whitespace, from both ends: the string
    is the result between two runs of whitespace, the result neither starts
    nor ends with whitespace, and stripping twice changes nothing more. *)
Lemma strip_spec (s : string) :
  (exists a b, s = (a ++ strip s ++ b)%string
               /\ all_space a = true /\ all_space b = true)
  /\ trimmed (strip s)
  /\ strip (strip s) = strip s.
Proof.
  split; [|split].
  - destruct (lstrip_split s) as (a & Ha & Hsa).
    destruct (rstrip_split (lstrip s)) as (b & Hb & Hsb).
    exists a, b. unfold strip. rewrite <- Hb. now repeat split.
  - apply strip_trimmed.
  - apply trimmed_strip, strip_trimmed.
Qed.

(** ** Reading the identifiers *)

Section ReadInput.

Lemma filter_filter_both {A} (P Q R : A -> bool) (l : list A) :
  (forall y, R y = P y && Q y) ->
  List.filter P (List.filter Q l) = List.filter R l.
Proof.
  intros H. induction l as [|x l IH]; simpl; [reflexivity|].
  rewrite H. destruct (Q x); simpl.
  - rewrite IH. now rewrite andb_true_r.
  - rewrite IH. now rewrite andb_false_r.
Qed.

Lemma filter_all {A} (P : A -> bool) (l : list A) :
  (forall y, In y l -> P y = true) -> List.filter P l = l.
Proof.
  induction l as [|x l IH]; simpl; intros H; [reflexivity|].
  rewrite (H x (or_introl eq_refl)). f_equal. apply IH.
  intros y Hy. apply H. now right.
Qed.

(** The loop with its set [seen] keeps, after [result], the first occurrence
    of every line that [seen] does not hold. *)
Lemma drop_duplicates_first lines : forall (seen : gset string) result,
  drop_duplicates lines seen result
  = (result
     ++ List.filter (fun y => negb (bool_decide (y ∈ seen)))
          (first_occurrences lines))%list.
Proof.
  induction lines as [|name rest IH]; intros seen result; simpl.
  - now rewrite app_nil_r.
  - destruct (decide (name ∈ seen)) as [Hin|Hnin].
    + rewrite IH, (bool_decide_eq_true_2 _ Hin). simpl. f_equal.
      symmetry. apply filter_filter_both. intros y.
      destruct (String.eqb_spec y name) as [->|Hne]; simpl.
      * rewrite (bool_decide_eq_true_2 _ Hin). reflexivity.
      * now rewrite andb_true_r.
    + rewrite IH, (bool_decide_eq_false_2 _ Hnin). simpl.
      rewrite <- app_assoc. simpl. do 2 f_equal.
      symmetry. apply filter_filter_both. intros y.
      destruct (String.eqb_spec y name) as [->|Hne]; simpl.
      * rewrite andb_false_r. apply negb_false_iff, bool_decide_eq_true_2.
        apply elem_of_union_l. now apply elem_of_singleton.
      * rewrite andb_true_r. f_equal. apply bool_decide_ext.
        rewrite elem_of_union, elem_of_singleton. tauto.
Qed.

Lemma first_occurrences_NoDup (l : list string) :
  NoDup l -> first_occurrences l = l.
Proof.
  induction l as [|x l IH]; simpl; intros Hnd; [reflexivity|].
  apply NoDup_cons in Hnd. destruct Hnd as (Hx & Hnd).
  rewrite (IH Hnd). f_equal. apply filter_all. intros y Hy.
  destruct (String.eqb_spec y x) as [->|Hne]; [|reflexivity].
  contradiction Hx. now apply list_elem_of_In.
Qed.

Lemma stripped_lines_fixed (l : list string) :
  (forall u, In u l -> strip u = u /\ u <> "") -> stripped_lines l = l.
Proof.
  unfold stripped_lines. induction l as [|x l IH]; simpl; intros H;
    [reflexivity|].
  destruct (H x (or_introl eq_refl)) as (Hs & Hne). rewrite Hs.
  destruct (String.eqb_spec x ""); [contradiction|]. simpl.
  rewrite Hs. f_equal. apply IH. intros u Hu. apply H. now right.
Qed.

Lemma open_file_first path content :
  open_file path (Some content)
  = ([], first_occurrences (stripped_lines content)).
Proof.
  unfold open_file. fold (stripped_lines content).
  rewrite drop_duplicates_first. simpl. f_equal. apply filter_all.
  intros y _. apply negb_true_iff, bool_decide_eq_false_2.
  apply not_elem_of_empty.
Qed.

End ReadInput.

(** [open_file] on a file that exists prints nothing and returns the first
    occurrence of every stripped line that is not blank, in the order of the
    file: the loop with the set [seen] is the removal of later duplicates. *)
Theorem open_file_first_occurrences (path : string) (content : list string) :
  open_file path (Some content)
  = ([], first_occurrences
           (map strip
              (List.filter (fun l => negb (String.eqb (strip l) "")) content))).
Proof. apply open_file_first. Qed.

(** Reading a file that holds, one per line, what [open_file] returned gives
    the same list again: its entries are stripped, not blank and distinct. *)
Theorem open_file_idempotent (path : string) (content : list string) :
  open_file path (Some (snd (open_file path (Some content))))
  = open_file path (Some content).
Proof.
  rewrite (open_file_first path (snd _)).
  assert (Hfix : stripped_lines (snd (open_file path (Some content)))
                 = snd (open_file path (Some content))).
  { apply stripped_lines_fixed. intros u Hu.
    apply list_elem_of_In, open_file_elem in Hu.
    destruct Hu as (content' & l & _ & _ & -> & Hne).
    split; [apply trimmed_strip, strip_trimmed | assumption]. }
  rewrite Hfix, first_occurrences_NoDup by apply open_file_NoDup.
  now rewrite open_file_first.
Qed.

(** When the input file does not exist, [amain] prints the error line of
    [open_file] and then the message that nothing is left to check; it builds
    no client, creates no task, sends no request, leaves every file as it
    is, and no step of a batch follows. *)
Theorem amain_missing_input (args : Namespace) (fs : gmap string string) :
  let s0 := amain args None fs in
  Checker.stdout s0
  = [[Lit "[ERROR] Input file not found: "; Lit (input args)];
     [Lit "[i] No valid usernames to check."]]
  /\ Checker.session s0 = None
  /\ Checker.tasks s0 = []
  /\ Checker.requests s0 = []
  /\ Checker.files s0 = fs
  /\ forall l, Checker.exec (checker_of args None) s0 l = None.
Proof.
  repeat split. intros [i | i reply | i | i reply x]; reflexivity.
Qed.

(** A file with nothing but blank lines gives no identifier: [amain] prints
    only the message that nothing is left to check and sends no request. *)
Theorem amain_blank_input
    (args : Namespace) (content : list string) (fs : gmap string string) :
  Forall (fun l => strip l = "") content ->
  let s0 := amain args (Some content) fs in
  snd (open_file (input args) (Some content)) = []
  /\ Checker.stdout s0 = [[Lit "[i] No valid usernames to check."]]
  /\ Checker.session s0 = None
  /\ Checker.tasks s0 = []
  /\ Checker.requests s0 = []
  /\ Checker.files s0 = fs.
Proof.
  intros Hblank.
  assert (Hnone : snd (open_file (input args) (Some content)) = []).
  { rewrite open_file_first. cbn [snd]. unfold stripped_lines.
    replace (List.filter _ content) with (@nil string); [reflexivity|].
    symmetry. induction Hblank as [|l ls Hl _ IH]; simpl; [reflexivity|].
    now rewrite Hl. }
  intros s0. subst s0. unfold amain, checker_of.
  rewrite Hnone. rewrite open_file_first. repeat split.
Qed.

(** Three lines of whitespace. *)
Lemma amain_blank_input_witness :
  let args := {| input := "usernames.txt"; output := "hits.txt";
                 concurrency := 2; retries := 3; timeout := 30;
                 oxylabs_username := None; oxylabs_password := None |} in
  let content := [""; "   "; String "009" (String "013" "")] in
  let s0 := amain args (Some content) ∅ in
  snd (open_file (input args) (Some content)) = []
  /\ Checker.stdout s0 = [[Lit "[i] No valid usernames to check."]]
  /\ Checker.session s0 = None
  /\ Checker.tasks s0 = []
  /\ Checker.requests s0 = []
  /\ Checker.files s0 = ∅.
Proof.
  apply (amain_blank_input
           {| input := "usernames.txt"; output := "hits.txt";
              concurrency := 2; retries := 3; timeout := 30;
              oxylabs_username := None; oxylabs_password := None |}
           [""; "   "; String "009" (String "013" "")] ∅).
  repeat (apply List.Forall_cons; [vm_compute; reflexivity|]).
  apply List.Forall_nil.
Defined.

(** ** One check, whatever the network answers *)

Section CheckOneBounds.

Import Checker.

Variables (self : Checker.t) (c : client) (username : string).

Lemma backoff_bounds a : 1 <= a -> 1 <= backoff a <= 10.
Proof.
  intros Ha. unfold backoff.
  assert (0 < 2 ^ (a - 1)) by (apply Z.pow_pos_nonneg; lia). lia.
Qed.

(** How a pass through the body of the loop can end. *)
Lemma after_fetch_shape a r :
  let e := after_fetch self username a r in
  match next e with
  | SleepThenContinue d =>
      a <= Checker.retries self /\ d = backoff a
      /\ printed e = [] /\ written e = []
      /\ exists x, r = Raised x /\ retryable x
  | Return =>
      length (printed e) = 1%nat
      /\ (written e = [] \/ written e = [username])
  | Propagate x =>
      printed e = [] /\ written e = [] /\ r = Raised x /\ ~ retryable x
  end.
Proof.
  destruct r as [status raw | x]; simpl.
  - destruct (eq_int status 404); [|destruct (is_None status)]; simpl;
      split; auto.
  - destruct x; simpl;
      try (destruct (Z.leb_spec a (Checker.retries self)); simpl;
           [repeat split; try assumption; eexists; split;
              [reflexivity | exact I]
           | split; auto]);
      repeat split; auto.
Qed.



End CheckOneBounds.



Section CheckOneTraces.

Import Checker.

Variables (self : Checker.t) (c : client) (username : string).

(** Answers that raise an error of the two retried classes, and a request
    followed by the sleep before the next one. *)
Let failing (reply : http_reply) : Prop :=
  exists e, fetch_status_code c reply = Raised e /\ retryable e.

Let round (n : nat) : list event :=
  [Request c (url_of username); Sleep (backoff (Z.of_nat n))].

Lemma loop_fail_then fails reply rest r : forall a,
  Z.of_nat (a + length fails) <= Checker.retries self ->
  Forall failing fails ->
  fetch_status_code c reply = r ->
  (forall e, r = Raised e -> ~ retryable e) ->
  loop self c username (Z.of_nat a) (fails ++ reply :: rest)
  = Some (concat (map round (seq (S a) (length fails)))
          ++ Request c (url_of username)
             :: events_of self
                  (after_fetch self username
                     (Z.of_nat (S (a + length fails))) r))%list.
Proof.
  induction fails as [|f fails IH]; intros a Ha Hf Hr Hnr.
  - cbn [app loop length seq map concat]. rewrite Hr.
    replace (Z.of_nat a + 1) with (Z.of_nat (S (a + 0))) by lia.
    pose proof (after_fetch_shape self username (Z.of_nat (S (a + 0))) r) as Hs.
    cbv zeta in Hs.
    destruct (next (after_fetch self username (Z.of_nat (S (a + 0))) r));
      try reflexivity.
    destruct Hs as (_ & _ & _ & _ & x & -> & Hx). now destruct (Hnr x eq_refl).
  - inversion Hf as [|? ? (e & He & Hre) Hrest]; subst.
    cbn [app loop length seq map concat]. rewrite He.
    rewrite (after_fetch_retryable self username _ _ Hre).
    cbn [length] in Ha.
    replace (Z.of_nat a + 1 <=? Checker.retries self) with true
      by (symmetry; apply Z.leb_le; lia).
    cbn [next events_of printed written map app].
    replace (Z.of_nat a + 1) with (Z.of_nat (S a)) by lia.
    rewrite (IH (S a)); [| lia | assumption | reflexivity | assumption].
    unfold round at 2. cbn [app].
    replace (S (S a + length fails)) with (S (a + S (length fails))) by lia.
    reflexivity.
Qed.

End CheckOneTraces.

(** When the first k answers raise retried errors, k within the budget, and
    the next answer gives a status, the check makes k+1 requests with the
    backoff sleeps between them and then classifies that status as if it had
    been the first answer: the earlier failures leave no trace in the output.
    Answers after that one are never asked for. *)
Theorem check_one_recovers
    (self : Checker.t) (c : client) (username : string)
    (fails : list http_reply) (reply : http_reply) (rest : list http_reply)
    (status raw : json) :
  Forall (fun f => exists e, fetch_status_code c f = Raised e /\ retryable e)
         fails ->
  Z.of_nat (length fails) <= Checker.retries self ->
  fetch_status_code c reply = Returned status raw ->
  let e := Checker.after_fetch self username 1 (Returned status raw) in
  Checker._check_one self c username (fails ++ reply :: rest)
  = Some (concat
            (map (fun n => [Checker.Request c (Checker.url_of username);
                            Checker.Sleep (Z.min (2 ^ (Z.of_nat n - 1)) 10)])
                 (seq 1 (length fails)))
          ++ Checker.Request c (Checker.url_of username)
             :: map Checker.Print (Checker.printed e)
             ++ map (fun a => Checker.Write a (Checker.output_path self))
                    (Checker.written e))%list.
Proof.
  intros Hf Hlen Hr e. unfold Checker._check_one.
  pose proof (loop_fail_then self c username fails reply rest
                (Returned status raw) 0%nat) as H.
  change (Z.of_nat 0) with 0 in H.
  rewrite H; [reflexivity | simpl; lia | exact Hf | exact Hr | discriminate].
Qed.

(** Two timeouts, then 404 through the direct client. *)
Lemma check_one_recovers_witness :
  Checker._check_one (Checker.__init__ [] None None 50 3 "hits.txt" 30)
    Direct "alice"
    ([HttpRaise (TimeoutError ""); HttpRaise (ClientError "reset")]
     ++ HttpResponse 404 None :: [])
  = Some [Checker.Request Direct (Checker.url_of "alice"); Checker.Sleep 1;
          Checker.Request Direct (Checker.url_of "alice"); Checker.Sleep 2;
          Checker.Request Direct (Checker.url_of "alice");
          Checker.Print
            [Lit (ESC ++ "[32;1m[AVAILABLE]" ++ ESC ++ "[0m ")%string;
             Lit (Checker.url_of "alice")];
          Checker.Write "alice" "hits.txt"].
Proof.
  apply (check_one_recovers
           (Checker.__init__ [] None None 50 3 "hits.txt" 30) Direct "alice"
           [HttpRaise (TimeoutError ""); HttpRaise (ClientError "reset")]
           (HttpResponse 404 None) [] (JInt 404) JNull).
  - apply List.Forall_cons;
      [exists (TimeoutError ""); split; [reflexivity | exact I] |].
    apply List.Forall_cons;
      [exists (ClientError "reset"); split; [reflexivity | exact I] |].
    apply List.Forall_nil.
  - simpl. lia.
  - reflexivity.
Defined.

(** An error of any other class is neither retried nor reported: when the
    first k answers raise retried errors, k within the budget, and the next
    answer raises an error of another class, the check makes k+1 requests
    with the backoff sleeps between them and stops there: the error leaves
    the coroutine, nothing is printed and nothing is written. *)
Theorem check_one_propagates
    (self : Checker.t) (c : client) (username : string)
    (fails : list http_reply) (reply : http_reply) (rest : list http_reply)
    (x : exn) :
  Forall (fun f => exists e, fetch_status_code c f = Raised e /\ retryable e)
         fails ->
  Z.of_nat (length fails) <= Checker.retries self ->
  fetch_status_code c reply = Raised x ->
  ~ retryable x ->
  Checker.after_fetch self username (Z.of_nat (S (length fails))) (Raised x)
  = {| Checker.printed := []; Checker.written := [];
       Checker.next := Checker.Propagate x |}
  /\ Checker._check_one self c username (fails ++ reply :: rest)
     = Some (concat
               (map (fun n => [Checker.Request c (Checker.url_of username);
                               Checker.Sleep (Z.min (2 ^ (Z.of_nat n - 1)) 10)])
                    (seq 1 (length fails)))
             ++ [Checker.Request c (Checker.url_of username)])%list.
Proof.
  intros Hf Hlen Hr Hx.
  assert (Hnext : Checker.after_fetch self username
                    (Z.of_nat (S (length fails))) (Raised x)
                  = {| Checker.printed := []; Checker.written := [];
                       Checker.next := Checker.Propagate x |}).
  { destruct x as [m | m | cls m]; simpl in Hx; try (now destruct Hx).
    reflexivity. }
  split; [exact Hnext|].
  unfold Checker._check_one.
  pose proof (loop_fail_then self c username fails reply rest (Raised x)
                0%nat) as H.
  change (Z.of_nat 0) with 0 in H.
  rewrite H; [| simpl; lia | exact Hf | exact Hr | now intros e [= <-]].
  cbn [Nat.add]. rewrite Hnext. reflexivity.
Qed.

(** A timeout, then an Oxylabs body whose [results] entry is a number: the
    [TypeError] leaves the check after the second request. *)
Lemma check_one_propagates_witness :
  Checker.after_fetch (Checker.__init__ [] None None 50 3 "hits.txt" 30)
    "alice" (Z.of_nat 2)
    (Raised (OtherError "TypeError" "object is not subscriptable"))
  = {| Checker.printed := []; Checker.written := [];
       Checker.next :=
         Checker.Propagate
           (OtherError "TypeError" "object is not subscriptable") |}
  /\ Checker._check_one (Checker.__init__ [] None None 50 3 "hits.txt" 30)
       Oxylabs "alice"
       ([HttpRaise (TimeoutError "")]
        ++ HttpResponse 200 (Some (JObj [("results", JInt 5)])) :: [])
     = Some [Checker.Request Oxylabs (Checker.url_of "alice");
             Checker.Sleep 1;
             Checker.Request Oxylabs (Checker.url_of "alice")].
Proof.
  apply (check_one_propagates
           (Checker.__init__ [] None None 50 3 "hits.txt" 30) Oxylabs "alice"
           [HttpRaise (TimeoutError "")]
           (HttpResponse 200 (Some (JObj [("results", JInt 5)]))) []
           (OtherError "TypeError" "object is not subscriptable")).
  - apply List.Forall_cons;
      [exists (TimeoutError ""); split; [reflexivity | exact I] |].
    apply List.Forall_nil.
  - simpl. lia.
  - reflexivity.
  - simpl. tauto.
Defined.

(** ** The batch under every schedule *)

Section Budget.

Import Checker.

Variable self : Checker.t.

Lemma total_app f (l1 l2 : list task) :
  total f (l1 ++ l2) = total f l1 + total f l2.
Proof. induction l1 as [|x l1 IH]; simpl; [reflexivity | rewrite IH; lia]. Qed.

Lemma total_insert f (l : list task) i x y :
  l !! i = Some x -> total f (<[i:=y]> l) = total f l - f x + f y.
Proof.
  intros H. destruct (insert_split l i x y H) as (l1 & l2 & -> & -> & _).
  rewrite !total_app. simpl. lia.
Qed.

Lemma total_bounds f (l : list task) lo hi :
  Forall (fun tk => lo <= f tk <= hi) l ->
  Z.of_nat (length l) * lo <= total f l <= Z.of_nat (length l) * hi.
Proof.
  induction 1 as [|x l Hx _ IH]; [simpl; lia|].
  cbn [total fold_right length]. fold (total f l). lia.
Qed.

(** The steps of a batch keep the attempt counters within the budget. *)
Lemma attempts_step s l s' :
  Forall (attempts_inv self) (tasks s) -> exec self s l = Some s' ->
  Forall (attempts_inv self) (tasks s').
Proof.
  intros Hinv Hexec.
  destruct (exec_cases self _ _ _ Hexec)
    as [(i & c & tk & -> & Hc & Htk & Hpc & Hsem & ->)
       |[(i & reply & c & tk & -> & Hc & Htk & Hpc & ->)
        |[(i & tk & d & -> & Htk & Hpc & ->)
         |(i & reply & x & c & tk & -> & Hc & Htk & Hpc & H404 & ->)]]];
    cbn [tasks]; (apply Forall_insert; [assumption|]);
    pose proof (proj1 (Forall_forall _ _) Hinv tk
                  (list_elem_of_lookup_2 _ _ _ Htk)) as Htki;
    unfold attempts_inv in *; rewrite Hpc in Htki; cbn [at_pc attempt].
  - lia.
  - pose proof (after_fetch_shape self (username tk) (attempt tk)
                  (fetch_status_code c reply)) as Hs.
    cbv zeta in Hs.
    destruct (next (after_fetch self (username tk) (attempt tk)
                      (fetch_status_code c reply))); cbn [pc_of];
      [assumption | | assumption].
    destruct Hs as (Hle & -> & _). split; [lia | reflexivity].
  - lia.
  - rewrite (after_failed_write self c reply _ _ x H404). cbn [next].
    pose proof (except_clause_shape self (username tk) (attempt tk) x)
      as (_ & Hs).
    destruct (next (except_clause self (username tk) (attempt tk) x));
      cbn [pc_of]; [assumption | | assumption].
    destruct Hs as (Hle & -> & _). split; [lia | reflexivity].
Qed.

Lemma attempts_start out fs :
  0 <= Checker.retries self ->
  Forall (attempts_inv self) (tasks (start self out fs)).
Proof.
  intros H0. rewrite start_tasks. apply Forall_forall. intros tk Hin.
  apply list_elem_of_fmap in Hin. destruct Hin as (u & -> & _).
  unfold attempts_inv. simpl. lia.
Qed.

Lemma attempts_run out fs ls s :
  0 <= Checker.retries self ->
  run self (start self out fs) ls = Some s ->
  Forall (attempts_inv self) (tasks s).
Proof.
  intros H0 Hrun.
  refine (run_invariant self (fun s => Forall (attempts_inv self) (tasks s))
            _ ls (start self out fs) s _ Hrun).
  - intros s1 l s2. apply attempts_step.
  - now apply attempts_start.
Qed.

(** Every request sent is one attempt of one task. *)
Lemma requests_step s l s' :
  Z.of_nat (length (requests s)) = total attempt (tasks s) ->
  exec self s l = Some s' ->
  Z.of_nat (length (requests s')) = total attempt (tasks s').
Proof.
  intros Hinv Hexec.
  destruct (exec_cases self _ _ _ Hexec)
    as [(i & c & tk & -> & Hc & Htk & Hpc & Hsem & ->)
       |[(i & reply & c & tk & -> & Hc & Htk & Hpc & ->)
        |[(i & tk & d & -> & Htk & Hpc & ->)
         |(i & reply & x & c & tk & -> & Hc & Htk & Hpc & H404 & ->)]]];
    cbn [tasks requests]; rewrite (total_insert _ _ _ _ _ Htk);
    cbn [attempt]; rewrite ?length_app; simpl; lia.
Qed.

Lemma steps_left_nonneg tk : attempts_inv self tk -> 0 <= steps_left self tk.
Proof.
  unfold attempts_inv, steps_left. destruct (at_pc tk); lia.
Qed.

(** Every step uses up one of the steps left. *)
Lemma steps_left_step s l s' :
  Forall (attempts_inv self) (tasks s) -> exec self s l = Some s' ->
  total (steps_left self) (tasks s') + 1 <= total (steps_left self) (tasks s).
Proof.
  intros Hinv Hexec.
  destruct (exec_cases self _ _ _ Hexec)
    as [(i & c & tk & -> & Hc & Htk & Hpc & Hsem & ->)
       |[(i & reply & c & tk & -> & Hc & Htk & Hpc & ->)
        |[(i & tk & d & -> & Htk & Hpc & ->)
         |(i & reply & x & c & tk & -> & Hc & Htk & Hpc & H404 & ->)]]];
    cbn [tasks]; rewrite (total_insert _ _ _ _ _ Htk);
    pose proof (proj1 (Forall_forall _ _) Hinv tk
                  (list_elem_of_lookup_2 _ _ _ Htk)) as Htki;
    unfold attempts_inv in Htki; unfold steps_left at 2 3;
    rewrite Hpc in *; cbn [at_pc attempt].
  - lia.
  - destruct (next _); cbn [pc_of]; lia.
  - lia.
  - destruct (next _); cbn [pc_of]; lia.
Qed.

Lemma steps_left_run ls : forall s s',
  Forall (attempts_inv self) (tasks s) ->
  run self s ls = Some s' ->
  Z.of_nat (length ls) + total (steps_left self) (tasks s')
  <= total (steps_left self) (tasks s).
Proof.
  induction ls as [|l ls IH]; intros s s' Hinv; simpl.
  - intros [= <-]. lia.
  - destruct (exec self s l) as [s1|] eqn:E; [|discriminate].
    intros Hrun.
    pose proof (steps_left_step _ _ _ Hinv E).
    pose proof (IH _ _ (attempts_step _ _ _ Hinv E) Hrun). lia.
Qed.

Lemma steps_left_total_nonneg (l : list task) :
  Forall (attempts_inv self) l -> 0 <= total (steps_left self) l.
Proof.
  intros H.
  destruct (total_bounds (steps_left self) l 0
              (Z.max 0 (3 * Checker.retries self + 4))) as (Hlo & _); [|lia].
  eapply Forall_impl; [exact H|]. intros tk Htk. cbv beta.
  pose proof (steps_left_nonneg tk Htk).
  unfold attempts_inv, steps_left in *. destruct (at_pc tk); lia.
Qed.

Lemma total_start f out fs k :
  (forall u, f (create_task u) = k) ->
  total f (tasks (start self out fs))
  = Z.of_nat (length (List.filter is_valid_instagram_username (to_check self)))
    * k.
Proof.
  intros Hf. rewrite start_tasks.
  induction (List.filter is_valid_instagram_username (to_check self))
    as [|u us IH]; [reflexivity|].
  cbn [map total fold_right length]. fold (total f (map create_task us)).
  rewrite IH, Hf. lia.
Qed.

End Budget.

Section BudgetRun.

Import Checker.

Variable self : Checker.t.

Lemma tasks_length out fs ls s :
  run self (start self out fs) ls = Some s ->
  length (tasks s)
  = length (List.filter is_valid_instagram_username (to_check self)).
Proof.
  intros Hrun. destruct (run_frame self _ _ _ Hrun) as (_ & Hus).
  rewrite start_tasks, usernames_created in Hus.
  now rewrite <- Hus, length_map.
Qed.

Lemma requests_run out fs ls s :
  run self (start self out fs) ls = Some s ->
  Z.of_nat (length (requests s)) = total attempt (tasks s).
Proof.
  intros Hrun.
  refine (run_invariant self
            (fun s => Z.of_nat (length (requests s)) = total attempt (tasks s))
            _ ls (start self out fs) s _ Hrun).
  - intros s1 l s2. apply requests_step.
  - rewrite start_requests, (total_start self attempt out fs 0);
      [simpl; lia | reflexivity].
Qed.

End BudgetRun.

(** Under every schedule, whatever the network answers and whether or not
    the writes succeed, a batch of n valid identifiers sends at most
    n*(retries+1) requests; a task whose request is in flight is at an
    attempt between 1 and retries+1; and a task that sleeps before a retry
    is at an attempt between 1 and retries and sleeps for
    min(2^(attempt-1), 10) seconds, between 1 and 10. *)
Theorem requests_within_budget
    (self : Checker.t) (out : list line) (fs : gmap string string)
    (ls : list Checker.label) (s : Checker.state) :
  0 <= Checker.retries self ->
  Checker.run self (Checker.start self out fs) ls = Some s ->
  Z.of_nat (length (Checker.requests s))
  <= Z.of_nat (length (List.filter is_valid_instagram_username
                         (Checker.to_check self)))
     * (Checker.retries self + 1)
  /\ Forall (fun tk =>
               Checker.at_pc tk = Checker.InFlight ->
               1 <= Checker.attempt tk <= Checker.retries self + 1)
            (Checker.tasks s)
  /\ Forall (fun tk => forall d,
               Checker.at_pc tk = Checker.Sleeping d ->
               1 <= Checker.attempt tk <= Checker.retries self
               /\ d = Z.min (2 ^ (Checker.attempt tk - 1)) 10
               /\ 1 <= d <= 10)
            (Checker.tasks s).
Proof.
  intros H0 Hrun.
  pose proof (attempts_run self out fs ls s H0 Hrun) as Hinv.
  pose proof (requests_run self out fs ls s Hrun) as Hreq.
  assert (Hatt : Forall (fun tk => 0 <= Checker.attempt tk
                                   <= Checker.retries self + 1)
                        (Checker.tasks s)).
  { eapply Forall_impl; [exact Hinv|]. intros tk Htk. cbv beta.
    unfold attempts_inv in Htk. destruct (Checker.at_pc tk); lia. }
  split; [|split].
  - rewrite Hreq, <- (tasks_length self out fs ls s Hrun).
    apply (total_bounds Checker.attempt (Checker.tasks s) 0), Hatt.
  - eapply Forall_impl; [exact Hinv|]. intros tk Htk Hpc.
    unfold attempts_inv in Htk. now rewrite Hpc in Htk.
  - eapply Forall_impl; [exact Hinv|]. intros tk Htk d Hpc.
    unfold attempts_inv in Htk. rewrite Hpc in Htk.
    destruct Htk as (Ha & ->). split; [exact Ha|]. split; [reflexivity|].
    apply backoff_bounds. lia.
Qed.

(** Two identifiers, one retry: after a timeout for the first and its
    second request, three requests have been sent. *)
Lemma requests_within_budget_witness :
  let self := Checker.__init__ ["alice"; "bob"] None None 2 1 "hits.txt" 30 in
  exists s,
    Checker.run self (Checker.start self [] ∅)
      [Checker.Acquire 0; Checker.Acquire 1;
       Checker.Reply 0 (HttpRaise (TimeoutError "")); Checker.Wake 0;
       Checker.Acquire 0] = Some s
    /\ length (Checker.requests s) = 3%nat
    /\ Z.of_nat (length (Checker.requests s))
       <= Z.of_nat (length (List.filter is_valid_instagram_username
                              (Checker.to_check self)))
          * (Checker.retries self + 1)
    /\ Forall (fun tk =>
                 Checker.at_pc tk = Checker.InFlight ->
                 1 <= Checker.attempt tk <= Checker.retries self + 1)
              (Checker.tasks s)
    /\ Forall (fun tk => forall d,
                 Checker.at_pc tk = Checker.Sleeping d ->
                 1 <= Checker.attempt tk <= Checker.retries self
                 /\ d = Z.min (2 ^ (Checker.attempt tk - 1)) 10
                 /\ 1 <= d <= 10)
              (Checker.tasks s).
Proof.
  eexists. split; [vm_compute; reflexivity|].
  split; [vm_compute; reflexivity|].
  apply (requests_within_budget
           (Checker.__init__ ["alice"; "bob"] None None 2 1 "hits.txt" 30)
           [] ∅
           [Checker.Acquire 0; Checker.Acquire 1;
            Checker.Reply 0 (HttpRaise (TimeoutError "")); Checker.Wake 0;
            Checker.Acquire 0]).
  - simpl. lia.
  - vm_compute. reflexivity.
Defined.

(** No schedule runs for ever: a task takes at most three steps per attempt
    (its request is sent, the answer arrives, its sleep ends), so a batch of
    n valid identifiers takes at most n*(3*retries+2) steps. *)
Theorem batch_terminates
    (self : Checker.t) (out : list line) (fs : gmap string string)
    (ls : list Checker.label) (s : Checker.state) :
  0 <= Checker.retries self ->
  Checker.run self (Checker.start self out fs) ls = Some s ->
  Z.of_nat (length ls)
  <= Z.of_nat (length (List.filter is_valid_instagram_username
                         (Checker.to_check self)))
     * (3 * Checker.retries self + 2).
Proof.
  intros H0 Hrun.
  pose proof (steps_left_run self ls _ _ (attempts_start self out fs H0) Hrun)
    as Hm.
  pose proof (steps_left_total_nonneg self _
                (attempts_run self out fs ls s H0 Hrun)) as Hpos.
  rewrite (total_start self (steps_left self) out fs
             (3 * Checker.retries self + 2)) in Hm.
  - lia.
  - intros u. unfold steps_left. simpl. lia.
Qed.

(** One identifier, no retry: request and answer are the two steps. *)
Lemma batch_terminates_witness :
  let self := Checker.__init__ ["alice"] None None 2 0 "hits.txt" 30 in
  Z.of_nat (length [Checker.Acquire 0; Checker.Reply 0 (HttpResponse 200 None)])
  <= Z.of_nat (length (List.filter is_valid_instagram_username
                         (Checker.to_check self)))
     * (3 * Checker.retries self + 2).
Proof.
  apply (batch_terminates
           (Checker.__init__ ["alice"] None None 2 0 "hits.txt" 30) [] ∅
           [Checker.Acquire 0; Checker.Reply 0 (HttpResponse 200 None)]
           (Checker.Build_state (Some Direct) 2
              [Checker.Build_task "alice" 1 Checker.Finished false]
              [direct_line;
               [Lit (ESC ++ "[31;1m[UNAVAILABLE]" ++ ESC ++ "[0m ")%string;
                Lit (Checker.url_of "alice"); Lit " (status=";
                Fmt (JInt 200); Lit ")"]]
              ∅ [(Direct, Checker.url_of "alice")])).
  - simpl. lia.
  - vm_compute. reflexivity.
Defined.

Section Reports.

Import Checker.

Variable self : Checker.t.

(** A line is printed when a task returns, and the line of an available
    identifier also when the write that follows it fails. *)
Lemma report_step s l s' :
  exec self s l = Some s' ->
  (length (stdout s') + length (List.filter finished (tasks s))
   = length (stdout s) + length (List.filter finished (tasks s'))
     + (if is_write_failure l then 1 else 0))%nat.
Proof.
  intros Hexec.
  destruct (exec_cases self _ _ _ Hexec)
    as [(i & c & tk & -> & Hc & Htk & Hpc & Hsem & ->)
       |[(i & reply & c & tk & -> & Hc & Htk & Hpc & ->)
        |[(i & tk & d & -> & Htk & Hpc & ->)
         |(i & reply & x & c & tk & -> & Hc & Htk & Hpc & H404 & ->)]]];
    cbn [tasks stdout is_write_failure].
  - pose proof (count_insert finished (tasks s) i tk
                  {| username := username tk; attempt := attempt tk + 1;
                     at_pc := InFlight; holds_sem := true |} Htk) as Hcnt.
    unfold finished at 2 4 in Hcnt. cbn [at_pc] in Hcnt. rewrite Hpc in Hcnt.
    lia.
  - pose proof (after_fetch_shape self (username tk) (attempt tk)
                  (fetch_status_code c reply)) as Hs.
    cbv zeta in Hs.
    set (e := after_fetch self (username tk) (attempt tk)
                (fetch_status_code c reply)) in *.
    pose proof (count_insert finished (tasks s) i tk
                  {| username := username tk; attempt := attempt tk;
                     at_pc := pc_of (next e); holds_sem := false |} Htk)
      as Hcnt.
    unfold finished at 2 4 in Hcnt. cbn [at_pc] in Hcnt. rewrite Hpc in Hcnt.
    rewrite length_app.
    destruct (next e) as [|d|y]; cbn [pc_of] in *.
    + destruct Hs as (Hp & _). lia.
    + destruct Hs as (_ & _ & Hp & _). rewrite Hp. simpl. lia.
    + destruct Hs as (Hp & _). rewrite Hp. simpl. lia.
  - pose proof (count_insert finished (tasks s) i tk
                  {| username := username tk; attempt := attempt tk;
                     at_pc := AtLoopHead; holds_sem := holds_sem tk |} Htk)
      as Hcnt.
    unfold finished at 2 4 in Hcnt. cbn [at_pc] in Hcnt. rewrite Hpc in Hcnt.
    lia.
  - rewrite (after_failed_write self c reply _ _ x H404).
    cbn [next printed].
    pose proof (except_clause_shape self (username tk) (attempt tk) x)
      as (_ & Hs).
    set (h := except_clause self (username tk) (attempt tk) x) in *.
    pose proof (count_insert finished (tasks s) i tk
                  {| username := username tk; attempt := attempt tk;
                     at_pc := pc_of (next h); holds_sem := false |} Htk)
      as Hcnt.
    unfold finished at 2 4 in Hcnt. cbn [at_pc] in Hcnt. rewrite Hpc in Hcnt.
    rewrite length_app. cbn [length].
    destruct (next h) as [|d|y]; cbn [pc_of] in *.
    + lia.
    + destruct Hs as (_ & _ & Hp). rewrite Hp. simpl. lia.
    + destruct Hs as (Hp & _). rewrite Hp. simpl. lia.
Qed.

Lemma report_run ls : forall s s',
  run self s ls = Some s' ->
  (length (stdout s') + length (List.filter finished (tasks s))
   = length (stdout s) + length (List.filter finished (tasks s'))
     + write_failures ls)%nat.
Proof.
  unfold write_failures.
  induction ls as [|l ls IH]; intros s s'; simpl.
  - intros [= <-]. lia.
  - destruct (exec self s l) as [s1|] eqn:E; [|discriminate].
    intros Hrun. pose proof (report_step _ _ _ E). pose proof (IH _ _ Hrun).
    destruct (is_write_failure l); simpl; lia.
Qed.

Lemma no_task_finished (us : list string) :
  List.filter finished (map create_task us) = [].
Proof. induction us; simpl; [reflexivity | assumption]. Qed.

(** The lines the direct client can lead to. *)
Lemma after_fetch_direct u a reply :
  Forall (fun l => is_unknown_line l = false)
         (printed (after_fetch self u a (fetch_status_code Direct reply))).
Proof.
  destruct reply as [x | status body]; simpl.
  - destruct x; simpl; try destruct (a <=? Checker.retries self);
      repeat constructor.
  - destruct (status =? 404); repeat constructor.
Qed.

Lemma direct_step base s l s' :
  (session s = Some Direct
   /\ exists more, stdout s = (base ++ more)%list
                   /\ Forall (fun l => is_unknown_line l = false) more) ->
  exec self s l = Some s' ->
  session s' = Some Direct
  /\ exists more, stdout s' = (base ++ more)%list
                  /\ Forall (fun l => is_unknown_line l = false) more.
Proof.
  intros (Hs & more & Hout & Hmore) Hexec.
  destruct (exec_cases self _ _ _ Hexec)
    as [(i & c & tk & -> & Hc & Htk & Hpc & Hsem & ->)
       |[(i & reply & c & tk & -> & Hc & Htk & Hpc & ->)
        |[(i & tk & d & -> & Htk & Hpc & ->)
         |(i & reply & x & c & tk & -> & Hc & Htk & Hpc & H404 & ->)]]];
    cbn [session stdout]; (split; [assumption|]).
  - now exists more.
  - rewrite Hs in Hc. injection Hc as <-.
    exists (more ++ printed (after_fetch self (username tk) (attempt tk)
                               (fetch_status_code Direct reply)))%list.
    split; [rewrite Hout; now rewrite app_assoc|].
    apply Forall_app. split; [assumption | apply after_fetch_direct].
  - now exists more.
  - rewrite Hs in Hc. injection Hc as <-.
    exists (more ++ printed (after_fetch_io self (username tk) (attempt tk)
                               (fetch_status_code Direct reply)
                               (IoRaises x)))%list.
    split; [rewrite Hout; now rewrite app_assoc|].
    apply Forall_app. split; [assumption|].
    rewrite (after_failed_write self Direct reply _ _ x H404). cbn [printed].
    constructor; [reflexivity|].
    destruct x; simpl; try destruct (attempt tk <=? Checker.retries self);
      repeat constructor.
Qed.

(** Every request is for the URL of the identifier of a task. *)
Lemma target_step (us : list string) s l s' :
  (map username (tasks s) = us
   /\ Forall (fun r => exists u, In u us /\ snd r = url_of u) (requests s)) ->
  exec self s l = Some s' ->
  map username (tasks s') = us
  /\ Forall (fun r => exists u, In u us /\ snd r = url_of u) (requests s').
Proof.
  intros (Hus & Hreq) Hexec.
  destruct (exec_frame self _ _ _ Hexec) as (_ & Hmap).
  split; [congruence|].
  destruct (exec_cases self _ _ _ Hexec)
    as [(i & c & tk & -> & Hc & Htk & Hpc & Hsem & ->)
       |[(i & reply & c & tk & -> & Hc & Htk & Hpc & ->)
        |[(i & tk & d & -> & Htk & Hpc & ->)
         |(i & reply & x & c & tk & -> & Hc & Htk & Hpc & H404 & ->)]]];
    cbn [requests]; try assumption.
  apply Forall_app. split; [assumption|]. apply Forall_singleton.
  exists (username tk). split; [|reflexivity].
  rewrite <- Hus. apply in_map. apply list_elem_of_In.
  eapply list_elem_of_lookup_2. exact Htk.
Qed.

End Reports.

(** Under every schedule, the lines printed since [start] has created the
    tasks are as many as the tasks that have returned and the writes that
    have failed: a check prints one line when it returns, the line of an
    available identifier also when the write that follows it raises, and
    nothing else, so nothing while it retries a request or when an error of
    the client leaves it. *)
Theorem one_line_per_finished_check
    (self : Checker.t) (out : list line) (fs : gmap string string)
    (ls : list Checker.label) (s : Checker.state) :
  Checker.run self (Checker.start self out fs) ls = Some s ->
  length (Checker.stdout s)
  = (length (Checker.stdout (Checker.start self out fs))
     + length (List.filter finished (Checker.tasks s))
     + write_failures ls)%nat.
Proof.
  intros Hrun. pose proof (report_run self ls _ _ Hrun) as H.
  rewrite start_tasks, no_task_finished in H. simpl in H. lia.
Qed.

(** A timeout that is retried prints nothing, the answer 200 prints one
    line, and so does the answer 404 whose write fails. *)
Lemma one_line_per_finished_check_witness :
  let self :=
    Checker.__init__ ["alice"; "bob"; "carl"] None None 3 1 "nodir/hits.txt" 30
  in
  exists s,
    Checker.run self (Checker.start self [] ∅)
      [Checker.Acquire 0; Checker.Acquire 1; Checker.Acquire 2;
       Checker.Reply 0 (HttpRaise (TimeoutError ""));
       Checker.Reply 1 (HttpResponse 200 None);
       Checker.WriteFails 2 (HttpResponse 404 None)
         (OtherError "FileNotFoundError" "nodir/hits.txt")] = Some s
    /\ length (Checker.stdout s) = 3%nat
    /\ length (Checker.stdout s)
       = (length (Checker.stdout (Checker.start self [] ∅))
          + length (List.filter finished (Checker.tasks s))
          + write_failures
              [Checker.Acquire 0; Checker.Acquire 1; Checker.Acquire 2;
               Checker.Reply 0 (HttpRaise (TimeoutError ""));
               Checker.Reply 1 (HttpResponse 200 None);
               Checker.WriteFails 2 (HttpResponse 404 None)
                 (OtherError "FileNotFoundError" "nodir/hits.txt")])%nat.
Proof.
  eexists. split; [vm_compute; reflexivity|].
  split; [vm_compute; reflexivity|].
  apply (one_line_per_finished_check
           (Checker.__init__ ["alice"; "bob"; "carl"] None None 3 1
              "nodir/hits.txt" 30)
           [] ∅
           [Checker.Acquire 0; Checker.Acquire 1; Checker.Acquire 2;
            Checker.Reply 0 (HttpRaise (TimeoutError ""));
            Checker.Reply 1 (HttpResponse 200 None);
            Checker.WriteFails 2 (HttpResponse 404 None)
              (OtherError "FileNotFoundError" "nodir/hits.txt")]).
  vm_compute. reflexivity.
Defined.

(** With the direct client no check ever ends as unknown: the client
    returns the HTTP status of the answer, never [None], so whatever the
    network answers no line about an unknown status is printed, while an
    answer without status does print that line. *)
Theorem direct_never_unknown
    (self : Checker.t) (out : list line) (fs : gmap string string)
    (ls : list Checker.label) (s : Checker.state) :
  Checker.session (Checker.start self out fs) = Some Direct ->
  Checker.run self (Checker.start self out fs) ls = Some s ->
  (exists more,
     Checker.stdout s = (Checker.stdout (Checker.start self out fs) ++ more)%list
     /\ Forall (fun l => is_unknown_line l = false) more)
  /\ forall u a raw,
       Forall (fun l => is_unknown_line l = true)
              (Checker.printed
                 (Checker.after_fetch self u a (Returned JNull raw))).
Proof.
  intros Hd Hrun. split; [|intros u a raw; repeat constructor].
  refine (proj2 (run_invariant self
            (fun s =>
               Checker.session s = Some Direct
               /\ exists more,
                    Checker.stdout s
                    = (Checker.stdout (Checker.start self out fs) ++ more)%list
                    /\ Forall (fun l => is_unknown_line l = false) more)
            _ ls (Checker.start self out fs) s _ Hrun)).
  - intros s1 l s2. apply direct_step.
  - split; [exact Hd|]. exists []. split; [now rewrite app_nil_r | constructor].
Qed.

(** No credentials: the direct client, and an answer with status 500. *)
Lemma direct_never_unknown_witness :
  let self := Checker.__init__ ["alice"] None None 2 1 "hits.txt" 30 in
  exists s,
    Checker.run self (Checker.start self [] ∅)
      [Checker.Acquire 0; Checker.Reply 0 (HttpResponse 500 None)] = Some s
    /\ (exists more,
          Checker.stdout s
          = (Checker.stdout (Checker.start self [] ∅) ++ more)%list
          /\ Forall (fun l => is_unknown_line l = false) more)
    /\ forall u a raw,
         Forall (fun l => is_unknown_line l = true)
                (Checker.printed
                   (Checker.after_fetch self u a (Returned JNull raw))).
Proof.
  eexists. split; [vm_compute; reflexivity|].
  apply (direct_never_unknown
           (Checker.__init__ ["alice"] None None 2 1 "hits.txt" 30) [] ∅
           [Checker.Acquire 0; Checker.Reply 0 (HttpResponse 500 None)]).
  - vm_compute. reflexivity.
  - vm_compute. reflexivity.
Defined.

Section OutputFile.

Import Checker.

Variable self : Checker.t.


Lemma run_app ls1 ls2 : forall s,
  run self s (ls1 ++ ls2)
  = match run self s ls1 with
    | Some s1 => run self s1 ls2
    | None => None
    end.
Proof.
  induction ls1 as [|l ls1 IH]; intros s; simpl; [reflexivity|].
  destruct (exec self s l); [apply IH | reflexivity].
Qed.

Lemma not_all_terminal (l : list task) :
  forallb terminal l = false -> exists tk, tk ∈ l /\ terminal tk = false.
Proof.
  induction l as [|x l IH]; simpl; [discriminate|].
  destruct (terminal x) eqn:E; simpl.
  - intros H. destruct (IH H) as (tk & Hin & Ht). exists tk.
    split; [now apply list_elem_of_further | assumption].
  - intros _. exists x. split; [apply list_elem_of_here | assumption].
Qed.

(** From a state that respects the semaphore and the budget, some schedule
    and some answers of the network bring every task to its end. *)
Lemma can_finish n : forall s,
  1 <= sem self ->
  sem_inv self s ->
  Forall (attempts_inv self) (tasks s) ->
  (tasks s <> [] -> session s <> None) ->
  total (steps_left self) (tasks s) <= Z.of_nat n ->
  exists ls s', run self s ls = Some s'
                /\ Forall (fun tk => terminal tk = true) (tasks s').
Proof.
  induction n as [|n IH]; intros s Hcap Hsem Hatt Hses Hm;
    (destruct (forallb terminal (tasks s)) eqn:E;
     [exists [], s; split; [reflexivity|];
      apply Forall_forall; intros tk Hin;
      apply (proj1 (forallb_forall _ _) E), list_elem_of_In, Hin |]);
    destruct (not_all_terminal _ E) as (tk & Hin & Hterm);
    (assert (Hne : tasks s <> [])
       by (intros E0; rewrite E0 in Hin; now apply elem_of_nil in Hin));
    destruct (enabled_step self s Hsem Hcap (Hses Hne) (ex_intro _ tk (conj Hin Hterm)))
      as (l & s1 & Hexec);
    pose proof (steps_left_step self _ _ _ Hatt Hexec) as Hdec;
    pose proof (attempts_step self _ _ _ Hatt Hexec) as Hatt1;
    pose proof (steps_left_total_nonneg self _ Hatt1) as Hpos.
  - lia.
  - destruct (IH s1) as (ls & s' & Hrun & Hall);
      [assumption | eapply sem_inv_step; eassumption | assumption | | lia |].
    + destruct (exec_frame self _ _ _ Hexec) as (-> & _). intros _.
      now apply Hses.
    + exists (l :: ls), s'. split; [|assumption]. simpl. now rewrite Hexec.
Qed.

End OutputFile.



(** Only valid identifiers are probed: under every schedule, each request
    sent goes through the client of the batch to
    https://www.instagram.com/<u>/ for an identifier u of the input that is
    valid. *)
Theorem requests_for_valid_identifiers
    (self : Checker.t) (out : list line) (fs : gmap string string)
    (ls : list Checker.label) (s : Checker.state) :
  Checker.run self (Checker.start self out fs) ls = Some s ->
  Forall (fun r =>
            Some (fst r) = Checker.session (Checker.start self out fs)
            /\ exists u, In u (Checker.to_check self)
                         /\ is_valid_instagram_username u = true
                         /\ snd r
                            = ("https://www.instagram.com/" ++ u ++ "/")%string)
         (Checker.requests s).
Proof.
  intros Hrun.
  destruct (choice_run self out fs ls s Hrun) as (_ & Hfst & _).
  assert (Hsnd :
    map Checker.username (Checker.tasks s)
    = List.filter is_valid_instagram_username (Checker.to_check self)
    /\ Forall (fun r => exists u,
                 In u (List.filter is_valid_instagram_username
                         (Checker.to_check self))
                 /\ snd r = Checker.url_of u) (Checker.requests s)).
  { refine (run_invariant self
              (fun s =>
                 map Checker.username (Checker.tasks s)
                 = List.filter is_valid_instagram_username
                     (Checker.to_check self)
                 /\ Forall (fun r => exists u,
                              In u (List.filter is_valid_instagram_username
                                      (Checker.to_check self))
                              /\ snd r = Checker.url_of u)
                           (Checker.requests s))
              _ ls (Checker.start self out fs) s _ Hrun).
    - intros s1 l s2. apply target_step.
    - rewrite start_tasks, usernames_created, start_requests.
      split; [reflexivity | constructor]. }
  destruct Hsnd as (_ & Hsnd).
  rewrite Forall_forall in Hfst, Hsnd. apply Forall_forall. intros r Hr.
  split; [now apply Hfst|].
  destruct (Hsnd r Hr) as (u & Hu & Hurl). apply filter_In in Hu.
  destruct Hu as (Hin & Hv). exists u. now repeat split.
Qed.

(** "bob!" is skipped; the one request is for "alice". *)
Lemma requests_for_valid_identifiers_witness :
  let self := Checker.__init__ ["bob!"; "alice"] None None 2 1 "hits.txt" 30 in
  exists s,
    Checker.run self (Checker.start self [] ∅) [Checker.Acquire 0] = Some s
    /\ Checker.requests s = [(Direct, "https://www.instagram.com/alice/")]
    /\ Forall (fun r =>
                 Some (fst r) = Checker.session (Checker.start self [] ∅)
                 /\ exists u, In u (Checker.to_check self)
                              /\ is_valid_instagram_username u = true
                              /\ snd r
                                 = ("https://www.instagram.com/" ++ u ++ "/")%string)
              (Checker.requests s).
Proof.
  eexists. split; [vm_compute; reflexivity|].
  split; [vm_compute; reflexivity|].
  apply (requests_for_valid_identifiers
           (Checker.__init__ ["bob!"; "alice"] None None 2 1 "hits.txt" 30)
           [] ∅ [Checker.Acquire 0]).
  vm_compute. reflexivity.
Defined.

(** Wherever a batch stands, it can be brought to its end: some schedule and
    some answers of the network extend the run to a state in which every
    task has returned or has failed, and the whole run still has at most
    n*(3*retries+2) steps. *)
Theorem batch_can_finish
    (self : Checker.t) (out : list line) (fs : gmap string string)
    (ls : list Checker.label) (s : Checker.state) :
  0 <= Checker.retries self ->
  1 <= Checker.sem self ->
  Checker.run self (Checker.start self out fs) ls = Some s ->
  exists ls' s',
    Checker.run self (Checker.start self out fs) (ls ++ ls') = Some s'
    /\ Forall (fun tk => terminal tk = true) (Checker.tasks s')
    /\ Z.of_nat (length (ls ++ ls'))
       <= Z.of_nat (length (List.filter is_valid_instagram_username
                              (Checker.to_check self)))
          * (3 * Checker.retries self + 2).
Proof.
  intros H0 Hcap Hrun.
  pose proof (attempts_run self out fs ls s H0 Hrun) as Hatt.
  assert (Hsem : sem_inv self s).
  { eapply (run_invariant self (sem_inv self)); [| | exact Hrun].
    - intros s0 l s1. apply sem_inv_step.
    - apply start_sem_inv. lia. }
  destruct (can_finish self
              (Z.to_nat (total (steps_left self) (Checker.tasks s))) s)
    as (ls' & s' & Hrun' & Hall);
    [assumption | assumption | assumption
    | apply (started_session self out fs ls s Hrun) | lia |].
  assert (Hall' : Checker.run self (Checker.start self out fs) (ls ++ ls')
                  = Some s') by (now rewrite run_app, Hrun).
  exists ls', s'. split; [exact Hall'|]. split; [exact Hall|].
  pose proof (steps_left_run self _ _ _ (attempts_start self out fs H0) Hall')
    as Hm.
  pose proof (steps_left_total_nonneg self _
                (attempts_run self out fs _ s' H0 Hall')) as Hpos.
  rewrite (total_start self (steps_left self) out fs
             (3 * Checker.retries self + 2)) in Hm; [lia|].
  intros u. unfold steps_left. simpl. lia.
Qed.

(** One identifier whose request is in flight. *)
Lemma batch_can_finish_witness :
  let self := Checker.__init__ ["alice"] None None 2 1 "hits.txt" 30 in
  exists ls' s',
    Checker.run self (Checker.start self [] ∅) ([Checker.Acquire 0] ++ ls')
    = Some s'
    /\ Forall (fun tk => terminal tk = true) (Checker.tasks s')
    /\ Z.of_nat (length ([Checker.Acquire 0] ++ ls'))
       <= Z.of_nat (length (List.filter is_valid_instagram_username
                              (Checker.to_check self)))
          * (3 * Checker.retries self + 2).
Proof.
  apply (batch_can_finish
           (Checker.__init__ ["alice"] None None 2 1 "hits.txt" 30) [] ∅
           [Checker.Acquire 0]
           (Checker.Build_state (Some Direct) 1
              [Checker.Build_task "alice" 1 Checker.InFlight true]
              [direct_line] ∅ [(Direct, Checker.url_of "alice")])).
  - simpl. lia.
  - simpl. lia.
  - vm_compute. reflexivity.
Defined.

(** [start] accounts for every identifier it is given: it creates one task
    per valid identifier, in the order of the list and without removing
    duplicates, the tasks keep their identifiers under every schedule, and
    the tasks and the skipped identifiers together are as many as the
    identifiers given. *)
Theorem start_accounts_for_every_identifier
    (self : Checker.t) (out : list line) (fs : gmap string string)
    (ls : list Checker.label) (s : Checker.state) :
  Checker.run self (Checker.start self out fs) ls = Some s ->
  let valid_usernames :=
    List.filter is_valid_instagram_username (Checker.to_check self) in
  let skipped :=
    List.filter (fun u => negb (existsb (String.eqb u) valid_usernames))
                (Checker.to_check self) in
  map Checker.username (Checker.tasks s) = valid_usernames
  /\ (length (Checker.tasks s) + length skipped
      = length (Checker.to_check self))%nat
  /\ Forall (fun u => is_valid_instagram_username u = false) skipped.
Proof.
  intros Hrun valid_usernames skipped.
  destruct (run_frame self _ _ _ Hrun) as (_ & Hus).
  rewrite start_tasks, usernames_created in Hus.
  split; [exact Hus|].
  unfold skipped, valid_usernames. rewrite skipped_invalid. split.
  - rewrite <- (length_map Checker.username), Hus.
    apply List.filter_length.
  - apply Forall_forall. intros u Hu. apply list_elem_of_In, filter_In in Hu.
    now apply negb_true_iff.
Qed.

(** "alice" twice and "bob!": two tasks, one identifier skipped. *)
Lemma start_accounts_for_every_identifier_witness :
  let self :=
    Checker.__init__ ["alice"; "bob!"; "alice"] None None 2 1 "hits.txt" 30 in
  exists s,
    Checker.run self (Checker.start self [] ∅) [Checker.Acquire 1] = Some s
    /\ map Checker.username (Checker.tasks s) = ["alice"; "alice"]
    /\ let valid_usernames :=
         List.filter is_valid_instagram_username (Checker.to_check self) in
       let skipped :=
         List.filter (fun u => negb (existsb (String.eqb u) valid_usernames))
                     (Checker.to_check self) in
       map Checker.username (Checker.tasks s) = valid_usernames
       /\ (length (Checker.tasks s) + length skipped
           = length (Checker.to_check self))%nat
       /\ Forall (fun u => is_valid_instagram_username u = false) skipped.
Proof.
  eexists. split; [vm_compute; reflexivity|].
  split; [vm_compute; reflexivity|].
  apply (start_accounts_for_every_identifier
           (Checker.__init__ ["alice"; "bob!"; "alice"] None None 2 1
              "hits.txt" 30) [] ∅ [Checker.Acquire 1]).
  vm_compute. reflexivity.
Defined.

Section Lines.

Lemma in_class_not_space c : in_class c = true -> isspace c = false.
Proof.
  destruct c as [[] [] [] [] [] [] [] []]; vm_compute; congruence.
Qed.

Lemma all_in_class_last s : forall front c,
  all_in_class s = true -> s = (front ++ String c "")%string ->
  in_class c = true.
Proof.
  induction s as [|a s IH]; intros front c Hall Hs.
  - symmetry in Hs. now apply append_not_nil in Hs.
  - simpl in Hall. apply andb_true_iff in Hall. destruct Hall as (Ha & Hrest).
    destruct front as [|f front]; rewrite ?append_cons, ?append_nil_l in Hs.
    + now injection Hs as <- _.
    + injection Hs as _ Hs. now apply (IH front).
Qed.

Lemma valid_all_in_class u :
  is_valid_instagram_username u = true -> all_in_class u = true /\ u <> "".
Proof.
  unfold is_valid_instagram_username, fullmatch_class_plus.
  destruct u as [|c u]; [discriminate|].
  destruct (negb _); [discriminate|].
  destruct (all_in_class (String c u)); [split; [reflexivity | discriminate]|].
  discriminate.
Qed.

Lemma valid_trimmed u : is_valid_instagram_username u = true -> trimmed u.
Proof.
  intros Hv. destruct (valid_all_in_class u Hv) as (Hall & _). split.
  - intros c rest ->. simpl in Hall. apply andb_true_iff in Hall.
    now apply in_class_not_space.
  - intros front c Hs. apply in_class_not_space.
    now apply (all_in_class_last u front c).
Qed.

Lemma lstrip_app_space pre s :
  all_space pre = true -> lstrip (pre ++ s)%string = lstrip s.
Proof.
  induction pre as [|p pre IH]; [reflexivity|].
  intros H. cbn [all_space] in H. apply andb_true_iff in H.
  destruct H as (Hp & Hpre).
  rewrite append_cons. cbn [lstrip]. rewrite Hp. now apply IH.
Qed.

Lemma rstrip_all_space post : all_space post = true -> rstrip post = "".
Proof.
  induction post as [|p post IH]; [reflexivity|].
  simpl. intros H. apply andb_true_iff in H. destruct H as (Hp & Hpost).
  now rewrite (IH Hpost), Hp.
Qed.

Lemma rstrip_app_space s post :
  all_space post = true -> rstrip (s ++ post)%string = rstrip s.
Proof.
  intros Hpost. induction s as [|c s IH].
  - rewrite append_nil_l. now apply rstrip_all_space.
  - rewrite append_cons. simpl. now rewrite IH.
Qed.

(** Whitespace around a string that has none at its ends is what [strip]
    removes. *)
Lemma strip_padded pre u post :
  trimmed u -> u <> "" ->
  all_space pre = true -> all_space post = true ->
  strip (pre ++ u ++ post)%string = u.
Proof.
  intros (Hhead & Hlast) Hne Hpre Hpost. unfold strip.
  rewrite (lstrip_app_space pre _ Hpre).
  destruct u as [|c u]; [contradiction|].
  rewrite append_cons. cbn [lstrip]. rewrite (Hhead c u eq_refl).
  rewrite <- append_cons, (rstrip_app_space _ post Hpost).
  now apply rstrip_fixed.
Qed.

End Lines.

(** A line of the input file that holds a valid username, whatever
    whitespace surrounds it, is probed: [amain] creates exactly one task for
    it, however often the line occurs; the tasks are those of the valid
    entries of [open_file]'s result, in the order of the file, and every
    task stands for such a line. *)
Theorem valid_lines_get_one_task
    (args : Namespace) (content : list string) (fs : gmap string string)
    (ls : list Checker.label) (s : Checker.state) :
  Checker.run (checker_of args (Some content))
    (amain args (Some content) fs) ls = Some s ->
  let names := map Checker.username (Checker.tasks s) in
  names = List.filter is_valid_instagram_username
            (snd (open_file (input args) (Some content)))
  /\ NoDup names
  /\ (forall u pre post,
        is_valid_instagram_username u = true ->
        all_space pre = true -> all_space post = true ->
        In (pre ++ u ++ post)%string content -> In u names)
  /\ forall u, In u names ->
       is_valid_instagram_username u = true
       /\ exists l, In l content /\ u = strip l.
Proof.
  intros Hrun names.
  destruct (run_frame _ _ _ _ Hrun) as (_ & Hus).
  unfold amain in Hus. rewrite start_tasks, usernames_created in Hus.
  cbn [checker_of Checker.__init__ Checker.to_check] in Hus.
  fold names in Hus.
  split; [exact Hus|]. split; [|split].
  - rewrite Hus. apply NoDup_ListNoDup, List.NoDup_filter, NoDup_ListNoDup,
      open_file_NoDup.
  - intros u pre post Hv Hpre Hpost Hin. rewrite Hus.
    apply filter_In. split; [|exact Hv].
    apply list_elem_of_In, open_file_elem.
    destruct (valid_all_in_class u Hv) as (_ & Hne).
    exists content, (pre ++ u ++ post)%string.
    rewrite (strip_padded pre u post (valid_trimmed u Hv) Hne Hpre Hpost).
    now repeat split.
  - intros u Hu. rewrite Hus in Hu. apply filter_In in Hu.
    destruct Hu as (Hin & Hv). split; [exact Hv|].
    apply list_elem_of_In, open_file_elem in Hin.
    destruct Hin as (content' & l & [= <-] & Hl & -> & _).
    now exists l.
Qed.

(** The file holds "alice" twice, padded with blanks, and "bob!". *)
Lemma valid_lines_get_one_task_witness :
  let args := {| input := "usernames.txt"; output := "hits.txt";
                 concurrency := 2; retries := 3; timeout := 30;
                 oxylabs_username := None; oxylabs_password := None |} in
  let content := ["  alice "; "bob!"; "alice"] in
  exists s,
    Checker.run (checker_of args (Some content))
      (amain args (Some content) ∅) [Checker.Acquire 0] = Some s
    /\ map Checker.username (Checker.tasks s) = ["alice"]
    /\ let names := map Checker.username (Checker.tasks s) in
       names = List.filter is_valid_instagram_username
                 (snd (open_file (input args) (Some content)))
       /\ NoDup names
       /\ (forall u pre post,
             is_valid_instagram_username u = true ->
             all_space pre = true -> all_space post = true ->
             In (pre ++ u ++ post)%string content -> In u names)
       /\ forall u, In u names ->
            is_valid_instagram_username u = true
            /\ exists l, In l content /\ u = strip l.
Proof.
  eexists. split; [vm_compute; reflexivity|].
  split; [vm_compute; reflexivity|].
  apply (valid_lines_get_one_task
           {| input := "usernames.txt"; output := "hits.txt";
              concurrency := 2; retries := 3; timeout := 30;
              oxylabs_username := None; oxylabs_password := None |}
           ["  alice "; "bob!"; "alice"] ∅ [Checker.Acquire 0]).
  vm_compute. reflexivity.
Defined.

(** ** The output file and the screen *)

Section Screen.

Import Checker.

Variable self : Checker.t.






End Screen.



(** ** When the Oxylabs client raises *)

(** A body that is empty or blank is not parsed: [resp.json()] returns
    [None], the client returns it without a status, and the check prints the
    line of an unknown status and returns. *)
Example oxylabs_blank_body :
  fetch_status_code Oxylabs (HttpResponse 200 (Some JNull))
  = Returned JNull JNull
  /\ Checker.after_fetch (Checker.__init__ [] None None 50 3 "hits.txt" 30)
       "alice" 1 (Returned JNull JNull)
     = {| Checker.printed :=
            [[Lit "[!] Unknown status for "; Lit "alice";
              Lit ", response malformed: "; Repr JNull]];
          Checker.written := [];
          Checker.next := Checker.Return |}.
Proof. split; reflexivity. Qed.

(** On an answer with a JSON body the Oxylabs client raises in one case
    only: the body is a dict whose [results] entry is truthy and is a
    number, a boolean or a dict.  For every other body it returns a status
    and the object the status was looked up in, whatever the HTTP status of
    the answer itself. *)
Theorem oxylabs_raises_iff (status : Z) (data : json) :
  (exists e,
     fetch_status_code Oxylabs (HttpResponse status (Some data)) = Raised e)
  <-> exists kv v,
        data = JObj kv /\ dict_find "results" kv = Some v
        /\ truthy v = true /\ not_indexable v = true.
Proof.
  unfold fetch_status_code, OxylabsClient.fetch_status_code,
    OxylabsClient.resolve.
  destruct data as [| b | z | f | t | l | kv]; cbn [is_dict andb];
    try (split; [intros (e & [=]) | intros (kv & v & [=] & _)]).
  cbn [items]. unfold dict_contains, dict_get.
  destruct (dict_find "results" kv) as [v|] eqn:Hf; cbn [andb].
  - destruct (truthy v) eqn:Ht.
    + destruct v as [| b | z | f | t | l | kv']; simpl in Ht; try discriminate;
        cbn [subscript0].
      * split; [intros _; exists kv, (JBool b); now repeat split
               | intros _; eexists; reflexivity].
      * split; [intros _; exists kv, (JInt z); now repeat split
               | intros _; eexists; reflexivity].
      * split; [intros _; exists kv, (JFloat f); now repeat split
               | intros _; eexists; reflexivity].
      * destruct t; [discriminate|].
        split; [intros (e & [=])|].
        intros (kv0 & v & [= <-] & Hv & _ & Hn). rewrite Hf in Hv.
        injection Hv as <-. discriminate.
      * destruct l; [discriminate|].
        split; [intros (e & [=])|].
        intros (kv0 & v & [= <-] & Hv & _ & Hn). rewrite Hf in Hv.
        injection Hv as <-. discriminate.
      * split; [intros _; exists kv, (JObj kv'); now repeat split
               | intros _; eexists; reflexivity].
    + split; [intros (e & [=])|].
      intros (kv0 & v0 & [= <-] & Hv & Ht0 & _). rewrite Hf in Hv.
      injection Hv as <-. congruence.
  - split; [intros (e & [=])|].
    intros (kv0 & v0 & [= <-] & Hv & _). congruence.
Qed.

(** ** One task on the event loop and [_check_one] on its own *)

Section Alone.

Import Checker.

Variables (self : Checker.t) (c : client).

Lemma prints_of_events e :
  prints_of (events_of self e) = printed e
  /\ map fst (writes_of (events_of self e)) = written e
  /\ List.filter is_request (events_of self e) = [].
Proof.
  unfold events_of, prints_of, writes_of.
  induction (printed e) as [|p ps (IH1 & IH2 & IH3)]; simpl.
  - induction (written e) as [|w ws (IH1 & IH2 & IH3)]; simpl;
      [now repeat split|]. repeat split; [assumption | now f_equal | assumption].
  - repeat split; [now f_equal | assumption | assumption].
Qed.

(** The request of task [i] is sent and answered. *)
Lemma one_attempt s i tk reply :
  session s = Some c -> tasks s !! i = Some tk ->
  at_pc tk = AtLoopHead -> 0 < sem_value s ->
  let e := after_fetch self (username tk) (attempt tk + 1)
             (fetch_status_code c reply) in
  run self s [Acquire i; Reply i reply]
  = Some {| session := Some c;
            sem_value := sem_value s;
            tasks := <[i := {| username := username tk;
                               attempt := attempt tk + 1;
                               at_pc := pc_of (next e);
                               holds_sem := false |}]> (tasks s);
            stdout := (stdout s ++ printed e)%list;
            files := write_all (output_path self) (written e) (files s);
            requests := (requests s ++ [(c, url_of (username tk))])%list |}.
Proof.
  intros Hc Htk Hpc Hsem e.
  assert (H1 : exec self s (Acquire i)
               = Some {| session := session s; sem_value := sem_value s - 1;
                         tasks := <[i := {| username := username tk;
                                            attempt := attempt tk + 1;
                                            at_pc := InFlight;
                                            holds_sem := true |}]> (tasks s);
                         stdout := stdout s; files := files s;
                         requests :=
                           (requests s ++ [(c, url_of (username tk))])%list |}).
  { unfold exec. rewrite Hc, Htk, Hpc.
    replace (0 <? sem_value s) with true by (symmetry; now apply Z.ltb_lt).
    reflexivity. }
  cbn [run]. rewrite H1. unfold exec.
  cbn [session tasks sem_value stdout files requests]. rewrite Hc.
  rewrite list_lookup_insert_eq by (eapply lookup_lt_Some; exact Htk).
  cbn [at_pc username attempt]. rewrite list_insert_insert_eq.
  fold e. do 2 f_equal. lia.
Qed.

Lemma alone replies : forall a tr s i tk,
  loop self c (username tk) a replies = Some tr ->
  session s = Some c -> tasks s !! i = Some tk ->
  attempt tk = a -> at_pc tk = AtLoopHead -> 0 < sem_value s ->
  exists s',
    run self s (schedule_of self c (username tk) i a replies) = Some s'
    /\ stdout s' = (stdout s ++ prints_of tr)%list
    /\ files s'
       = write_all (output_path self) (map fst (writes_of tr)) (files s)
    /\ requests s'
       = (requests s
          ++ map (fun _ => (c, url_of (username tk)))
                 (List.filter is_request tr))%list
    /\ sem_value s' = sem_value s
    /\ session s' = Some c
    /\ (exists tk', tasks s' !! i = Some tk' /\ terminal tk' = true
                    /\ username tk' = username tk)
    /\ forall j, j <> i -> tasks s' !! j = tasks s !! j.
Proof.
  induction replies as [|reply rest IH]; intros a tr s i tk Hloop Hc Htk Ha
    Hpc Hsem; [discriminate|].
  cbn [loop schedule_of] in *.
  pose proof (one_attempt s i tk reply Hc Htk Hpc Hsem) as Hone.
  cbv zeta in Hone. rewrite Ha in Hone.
  pose proof (after_fetch_shape self (username tk) (a + 1)
                (fetch_status_code c reply)) as Hs.
  cbv zeta in Hs.
  set (e := after_fetch self (username tk) (a + 1)
              (fetch_status_code c reply)) in *.
  destruct (prints_of_events e) as (Hp & Hw & Hr).
  assert (Hlt : (i < length (tasks s))%nat)
    by (eapply lookup_lt_Some; exact Htk).
  destruct (next e) as [|d|x] eqn:Hnext.
  - injection Hloop as <-. eexists. split; [exact Hone|].
    cbn [stdout files requests sem_value session tasks pc_of].
    unfold prints_of, writes_of in *. cbn [flat_map List.filter is_request app map].
    rewrite Hp, Hw, Hr.
    repeat split.
    + eexists. split; [now apply list_lookup_insert_eq|]. now split.
    + intros j Hj. apply list_lookup_insert_ne. congruence.
  - destruct Hs as (_ & _ & Hpe & Hwe & _).
    destruct (loop self c (username tk) (a + 1) rest) as [tail|] eqn:El;
      [|discriminate].
    injection Hloop as <-.
    set (tk3 := {| username := username tk; attempt := a + 1;
                   at_pc := AtLoopHead; holds_sem := false |}).
    set (s3 := {| session := Some c; sem_value := sem_value s;
                  tasks := <[i := tk3]> (tasks s);
                  stdout := stdout s; files := files s;
                  requests := (requests s ++ [(c, url_of (username tk))])%list |}).
    assert (H3 : run self s [Acquire i; Reply i reply; Wake i] = Some s3).
    { change [Acquire i; Reply i reply; Wake i]
        with ([Acquire i; Reply i reply] ++ [Wake i])%list.
      rewrite run_app, Hone. cbn [run]. unfold exec.
      cbn [tasks session sem_value stdout files requests pc_of].
      rewrite list_lookup_insert_eq by assumption.
      cbn [at_pc username attempt holds_sem].
      rewrite list_insert_insert_eq, Hpe, Hwe, app_nil_r. reflexivity. }
    destruct (IH (a + 1) tail s3 i tk3) as (s' & Hrun & H1 & H2 & H4 & H5 & H6 & H7 & H8);
      [exact El | reflexivity | now apply list_lookup_insert_eq | reflexivity
      | reflexivity | exact Hsem |].
    exists s'. split.
    + change (Acquire i :: Reply i reply :: Wake i
              :: schedule_of self c (username tk) i (a + 1) rest)
        with ([Acquire i; Reply i reply; Wake i]
              ++ schedule_of self c (username tk3) i (a + 1) rest)%list.
      now rewrite run_app, H3.
    + unfold events_of. rewrite Hpe, Hwe. subst s3 tk3.
      cbn [map app]. unfold prints_of, writes_of in *.
      cbn [flat_map List.filter is_request app map].
      cbn [stdout files requests sem_value tasks username] in *.
      rewrite H1, H2, H4, H5, <- app_assoc.
      repeat split; try assumption.
      intros j Hj. rewrite (H8 j Hj). apply list_lookup_insert_ne. congruence.
  - injection Hloop as <-. eexists. split; [exact Hone|].
    cbn [stdout files requests sem_value session tasks pc_of].
    unfold prints_of, writes_of in *. cbn [flat_map List.filter is_request app map].
    rewrite Hp, Hw, Hr.
    repeat split.
    + eexists. split; [now apply list_lookup_insert_eq|]. now split.
    + intros j Hj. apply list_lookup_insert_ne. congruence.
Qed.

End Alone.

(** A task that runs alone on the event loop does what [_check_one] does on
    its own: when the check of the i-th valid identifier returns the trace
    [tr] for the answers [replies], the schedule that sends its requests,
    delivers these answers and ends its sleeps can run from the state
    [start] sets up, and it prints the lines of [tr], writes what [tr]
    writes, sends the requests of [tr], gives the semaphore back and leaves
    the task at its end and the other tasks untouched. *)
Theorem check_one_on_the_event_loop
    (self : Checker.t) (out : list line) (fs : gmap string string)
    (c : client) (i : nat) (u : string)
    (replies : list http_reply) (tr : list Checker.event) :
  List.filter is_valid_instagram_username (Checker.to_check self) !! i
  = Some u ->
  Checker.session (Checker.start self out fs) = Some c ->
  1 <= Checker.sem self ->
  Checker._check_one self c u replies = Some tr ->
  exists s',
    Checker.run self (Checker.start self out fs)
      (schedule_of self c u i 0 replies) = Some s'
    /\ Checker.stdout s'
       = (Checker.stdout (Checker.start self out fs) ++ prints_of tr)%list
    /\ Checker.files s'
       = Checker.write_all (Checker.output_path self)
           (map fst (writes_of tr)) fs
    /\ Checker.requests s'
       = map (fun _ => (c, Checker.url_of u)) (List.filter is_request tr)
    /\ Checker.sem_value s' = Checker.sem self
    /\ (exists tk', Checker.tasks s' !! i = Some tk' /\ terminal tk' = true
                    /\ Checker.username tk' = u)
    /\ forall j, j <> i ->
         Checker.tasks s' !! j
         = Checker.tasks (Checker.start self out fs) !! j.
Proof.
  intros Hi Hc Hcap Hrun.
  assert (Htk : Checker.tasks (Checker.start self out fs) !! i
                = Some (Checker.create_task u)).
  { rewrite start_tasks. now apply lookup_map. }
  destruct (alone self c replies 0 tr (Checker.start self out fs) i
              (Checker.create_task u))
    as (s' & H1 & H2 & H3 & H4 & H5 & H6 & H7 & H8);
    [exact Hrun | exact Hc | exact Htk | reflexivity | reflexivity
    | rewrite start_sem_value; lia |].
  exists s'. rewrite start_files in H3. rewrite start_requests in H4.
  rewrite start_sem_value in H5. cbn [Checker.create_task Checker.username] in *.
  repeat split; assumption.
Qed.

(** "bob" is the second of two identifiers: a timeout, then 404. *)
Lemma check_one_on_the_event_loop_witness :
  let self := Checker.__init__ ["alice"; "bob"] None None 2 1 "hits.txt" 30 in
  let replies := [HttpRaise (TimeoutError ""); HttpResponse 404 None] in
  let tr :=
    [Checker.Request Direct (Checker.url_of "bob"); Checker.Sleep 1;
     Checker.Request Direct (Checker.url_of "bob");
     Checker.Print [Lit (ESC ++ "[32;1m[AVAILABLE]" ++ ESC ++ "[0m ")%string;
                    Lit (Checker.url_of "bob")];
     Checker.Write "bob" "hits.txt"] in
  exists s',
    Checker.run self (Checker.start self [] ∅)
      (schedule_of self Direct "bob" 1 0 replies) = Some s'
    /\ Checker.stdout s'
       = (Checker.stdout (Checker.start self [] ∅) ++ prints_of tr)%list
    /\ Checker.files s'
       = Checker.write_all (Checker.output_path self)
           (map fst (writes_of tr)) ∅
    /\ Checker.requests s'
       = map (fun _ => (Direct, Checker.url_of "bob"))
             (List.filter is_request tr)
    /\ Checker.sem_value s' = Checker.sem self
    /\ (exists tk', Checker.tasks s' !! 1%nat = Some tk'
                    /\ terminal tk' = true
                    /\ Checker.username tk' = "bob")
    /\ forall j, j <> 1%nat ->
         Checker.tasks s' !! j
         = Checker.tasks (Checker.start self [] ∅) !! j.
Proof.
  apply (check_one_on_the_event_loop
           (Checker.__init__ ["alice"; "bob"] None None 2 1 "hits.txt" 30)
           [] ∅ Direct 1 "bob"
           [HttpRaise (TimeoutError ""); HttpResponse 404 None]).
  - vm_compute. reflexivity.
  - vm_compute. reflexivity.
  - simpl. lia.
  - vm_compute. reflexivity.
Defined.

(** ** The entries of [open_file] *)

(** Every entry [open_file] returns is a line of the file without the
    whitespace around it: it is not empty, it neither starts nor ends with
    whitespace, and some line of the file is this entry between two runs of
    whitespace. *)
Theorem open_file_entries
    (path : string) (file : option (list string)) (u : string) :
  In u (snd (open_file path file)) ->
  u <> ""
  /\ trimmed u
  /\ exists content l a b,
       file = Some content /\ In l content
       /\ l = (a ++ u ++ b)%string
       /\ all_space a = true /\ all_space b = true.
Proof.
  intros Hu. apply list_elem_of_In, open_file_elem in Hu.
  destruct Hu as (content & l & -> & Hl & -> & Hne).
  split; [exact Hne|]. split; [apply strip_trimmed|].
  destruct (strip_spec l) as ((a & b & Hsplit & Ha & Hb) & _).
  exists content, l, a, b. now repeat split.
Qed.

(** A line with a tab in front of "alice" and blanks behind. *)
Lemma open_file_entries_witness :
  "alice" <> ""
  /\ trimmed "alice"
  /\ exists content l a b,
       Some [(String "009" "alice  ")%string] = Some content /\ In l content
       /\ l = (a ++ "alice" ++ b)%string
       /\ all_space a = true /\ all_space b = true.
Proof.
  apply (open_file_entries "usernames.txt"
           (Some [(String "009" "alice  ")%string]) "alice").
  vm_compute. left. reflexivity.
Defined.
